(** * loadconfig: a recursive configuration-file loader

    Shallow embedding of [src/loadconfig.c] and the properties of its
    directive / recursion state machine.

    Conventions of the embedding
    - a [char *] that the code reads as a C string is a [string]; a pointer
      the code tests against [NULL] is an [option string];
    - an [int] result is a [Z] carrying the errno value;
    - [LoadState *pState] is threaded explicitly through a small state
      monad; [pState] itself is never [NULL] (it is the address of a local
      of [main]), so the [pState != NULL] halves of the guards are always
      true and are not repeated;
    - everything the program does to the outside world (calls to the
      variable store, lines printed) is appended to a trace;
    - the include recursion has no depth guard in the source, so
      [ProcessConfigFile] is indexed by a bound on the nesting depth and
      answers [None] when the bound is exceeded. *)

From Stdlib Require Import String Ascii List ZArith Lia Bool.
Import ListNotations.

Local Open Scope string_scope.
Local Open Scope Z_scope.

(** ** errno values used by the loader *)

Definition EOK : Z := 0.
Definition ENOENT : Z := 2.
Definition EINVAL : Z := 22.
Definition ENOTSUP : Z := 95.

(** ** C strings *)

Module CString.

Definition NUL : ascii := "000"%char.
Definition LF : ascii := "010"%char.

(** [strchr s c != NULL] *)
Fixpoint strchr (s : string) (c : ascii) : bool :=
  match s with
  | EmptyString => false
  | String d s' => if Ascii.eqb d c then true else strchr s' c
  end.

(** length of the leading run of [s] made of characters of [accept] *)
Fixpoint strspn (s accept : string) : nat :=
  match s with
  | EmptyString => O
  | String c s' => if strchr accept c then S (strspn s' accept) else O
  end.

(** length of the leading run of [s] made of characters not in [reject] *)
Fixpoint strcspn (s reject : string) : nat :=
  match s with
  | EmptyString => O
  | String c s' => if strchr reject c then O else S (strcspn s' reject)
  end.

Fixpoint take (n : nat) (s : string) : string :=
  match n, s with
  | S n', String c s' => String c (take n' s')
  | _, _ => EmptyString
  end.

Fixpoint drop (n : nat) (s : string) : string :=
  match n, s with
  | S n', String _ s' => drop n' s'
  | _, _ => s
  end.

(** Outcome of the first call [strtok_r (s, delim, &save)]: the token
    returned ([None] for [NULL]), the save pointer, and what the buffer at
    [s] reads as a C string once the delimiter that ends the token has been
    overwritten with [NUL]. *)
Record strtok_result := {
  tok_token : option string;
  tok_save : option string;
  tok_buffer : string
}.

(** [strtok_r] as the GNU C library implements it: leading delimiters are
    skipped; with nothing left the result is [NULL]; otherwise the token
    runs to the next delimiter, ONE delimiter character is replaced by
    [NUL] and the save pointer is left just behind it.  When the token
    reaches the end of the string the save pointer is left on the
    terminating [NUL], so it reads as the empty string and is not [NULL]. *)
Definition strtok_r (s delim : string) : strtok_result :=
  let lead := strspn s delim in
  let s1 := drop lead s in
  match s1 with
  | EmptyString =>
      {| tok_token := None; tok_save := Some s1; tok_buffer := s |}
  | String _ _ =>
      let n := strcspn s1 delim in
      let token := take n s1 in
      match drop n s1 with
      | EmptyString =>
          {| tok_token := Some token; tok_save := Some EmptyString;
             tok_buffer := s |}
      | String _ rest =>
          {| tok_token := Some token; tok_save := Some rest;
             tok_buffer := take (lead + n) s |}
      end
  end.

End CString.

Import CString.

(** ** The file system, as the loader's calls see it *)

(** [lstat] gives [st_size] when it succeeds, [fopen] the bytes the stream
    delivers when the file can be opened for reading, [opendir] the names
    that successive [readdir] calls return, in that order.  For a regular
    file [lstat] is the length of what [fopen] delivers. *)
Record FileSystem := {
  lstat : string -> option nat;
  fopen : string -> option string;
  opendir : string -> option (list string)
}.

Definition CONFIG_TAG : string := "@config".

Definition taglen : nat := String.length CONFIG_TAG.

Definition GetFileSize (fs : FileSystem) (filename : string) : nat :=
  match lstat fs filename with
  | Some st_size => st_size
  | None => O
  end.

(** [fread (buf, n, 1, fp)] from the start of the stream *)
Definition fread (n : nat) (fp : string) : string := take n fp.

(** [strncmp (a, b, n) == 0] for a [b] without [NUL] among its first [n]
    characters.  A short read leaves the tail of the stack buffer
    indeterminate in C; here it compares as a mismatch. *)
Definition strncmp_eq (a b : string) (n : nat) : bool :=
  String.eqb (take n a) (take n b).

Definition IsConfigFile (fp : string) : bool :=
  let buf := fread taglen fp in
  strncmp_eq buf CONFIG_TAG taglen.

(** [calloc (1, n + 1)] then [fread] of [n] bytes: the buffer holds at most
    [n] bytes of the stream and is always followed by a [NUL].  Allocation
    failure is not modelled. *)
Definition ReadConfigData (fp : string) (n : nat) : option string :=
  Some (fread n fp).

Definition GetConfigData (fs : FileSystem) (filename : string)
  : option string :=
  let filesize := GetFileSize fs filename in
  if (taglen <=? filesize)%nat then
    match fopen fs filename with
    | Some fp =>
        if IsConfigFile fp then ReadConfigData fp filesize else None
    | None => None
    end
  else None.

(** ** The external collaborators *)

(** The variable server and the template engine are outside the loader.
    [VAR_SetNameValue] answers an errno value and the server's next state;
    [TEMPLATE_StrToFile] answers an errno value and the C string the
    working buffer holds once the expansion has been written to it. *)
Class VarServer := {
  Store : Type;
  VAR_SetNameValue : Store -> string -> string -> Z * Store;
  TEMPLATE_StrToFile : Store -> string -> Z * string
}.

(** What the loader does to the outside world, in program order. *)
Inductive Event : Type :=
| SetCall (name value : string)                  (* VAR_SetNameValue *)
| Log (error : string) (file : option string) (line : Z)  (* LogError *)
| Failed (file : string)               (* "Failed to process %s" *)
| Enter (file : string)                (* "ProcessConfigFile: %s" *)
| Processing (info : string)           (* verbose: "Processing %s" *)
| Including (file : string)            (* verbose: "Including %s" *)
| ProcessingDirectory (dir : string)   (* verbose *)
| Setting (var val : string).          (* verbose: "Setting %s to %s" *)

(** ** The state monad of the loader

    [None] is "nesting bound exceeded". *)

Definition M (S A : Type) : Type := S -> option (A * S).

Definition ret {S A} (a : A) : M S A := fun st => Some (a, st).

Definition bind {S A B} (m : M S A) (k : A -> M S B) : M S B :=
  fun st => match m st with
            | Some (a, st') => k a st'
            | None => None
            end.

Notation "x <- m ;; k" := (bind m (fun x => k))
  (at level 61, m at next level, right associativity).
Notation "m ;; k" := (bind m (fun _ => k))
  (at level 61, right associativity).

Definition get {S} : M S S := fun st => Some (st, st).

Definition modify {S} (f : S -> S) : M S unit :=
  fun st => Some (tt, f st).

Definition when {S} (b : bool) (m : M S unit) : M S unit :=
  if b then m else ret tt.

Section Loader.

Context {VS : VarServer}.
Variable fs : FileSystem.

(** [struct loadState], without the fields that only describe where the
    working buffer lives ([fd], [workbufSize], [workbuf], [clientname]);
    [trace] is the record of the effects so far. *)
Record LoadState := {
  hVarServer : Store;
  verbose : bool;
  pFileName : option string;
  lineno : Z;
  required : bool;
  trace : list Event
}.

Definition set_hVarServer (h : Store) (st : LoadState) : LoadState :=
  {| hVarServer := h; verbose := verbose st; pFileName := pFileName st;
     lineno := lineno st; required := required st; trace := trace st |}.

Definition set_pFileName (f : option string) (st : LoadState) : LoadState :=
  {| hVarServer := hVarServer st; verbose := verbose st; pFileName := f;
     lineno := lineno st; required := required st; trace := trace st |}.

Definition set_lineno (n : Z) (st : LoadState) : LoadState :=
  {| hVarServer := hVarServer st; verbose := verbose st;
     pFileName := pFileName st; lineno := n; required := required st;
     trace := trace st |}.

Definition set_required (b : bool) (st : LoadState) : LoadState :=
  {| hVarServer := hVarServer st; verbose := verbose st;
     pFileName := pFileName st; lineno := lineno st; required := b;
     trace := trace st |}.

Definition add_event (e : Event) (st : LoadState) : LoadState :=
  {| hVarServer := hVarServer st; verbose := verbose st;
     pFileName := pFileName st; lineno := lineno st;
     required := required st; trace := (trace st ++ [e])%list |}.

Definition emit (e : Event) : M LoadState unit := modify (add_event e).

(** [fprintf (stdout, ...)] under [if (pState->verbose == true)] *)
Definition say (e : Event) : M LoadState unit :=
  st <- get ;; when (verbose st) (emit e).

(** [LogError]: the message goes out with the file name and the line
    number that are current at the time of the call. *)
Definition LogError (error : string) : M LoadState unit :=
  st <- get ;; emit (Log error (pFileName st) (lineno st)).

Definition call_VAR_SetNameValue (name value : string) : M LoadState Z :=
  fun st =>
    let (rc, h) := VAR_SetNameValue (hVarServer st) name value in
    Some (rc, set_hVarServer h (add_event (SetCall name value) st)).

(** *** Assignments *)

Definition ProcessVariableAssignment (pConfig : string) : M LoadState Z :=
  let ch := if strchr pConfig "=" then "=" else " " in
  let r := strtok_r pConfig ch in
  match tok_token r, tok_save r with
  | Some pVar, Some pVal =>
      say (Setting pVar pVal) ;;
      result <- call_VAR_SetNameValue pVar pVal ;;
      when (negb (result =? EOK))
           (if result =? ENOENT
            then LogError "Variable not found"
            else LogError "Variable assignment failed") ;;
      ret result
  | _, _ =>
      LogError "Invalid Variable Assignment" ;;
      ret EINVAL
  end.

(** *** Directives *)

Definition ProcessConfigDirective (pInfo : option string) : M LoadState Z :=
  match pInfo with
  | Some info => say (Processing info) ;; ret EOK
  | None => ret EINVAL
  end.

(** The functions below re-enter [ProcessConfigFile]; [recurse] stands for
    that call. *)
Section Body.

Variable recurse : option string -> M LoadState Z.

Definition ProcessIncludeDirective (pFilename : option string) : M LoadState Z :=
  match pFilename with
  | Some f =>
      modify (set_required false) ;;
      say (Including f) ;;
      recurse (Some f)
  | None => ret EINVAL
  end.

Definition ProcessRequireDirective (pFilename : option string) : M LoadState Z :=
  match pFilename with
  | Some f =>
      modify (set_required true) ;;
      say (Including f) ;;
      recurse (Some f)
  | None => ret EINVAL
  end.

(** the [while (entry = readdir (configdir))] loop, over [d_name] *)
Fixpoint readdir_loop (entries : list string) : M LoadState unit :=
  match entries with
  | [] => ret tt
  | d_name :: more =>
      modify (set_required false) ;;
      _ <- recurse (Some d_name) ;;
      readdir_loop more
  end.

Definition ProcessIncludeDirDirective (pDirname : option string) : M LoadState Z :=
  match pDirname with
  | Some d =>
      say (ProcessingDirectory d) ;;
      match opendir fs d with
      | Some entries => readdir_loop entries
      | None => ret tt
      end ;;
      ret EOK
  | None => ret EINVAL
  end.

(** The comparisons read the buffer at [pConfigDirective], which
    [strtok_r] has cut at the first blank. *)
Definition ProcessDirective (pConfigDirective : string) : M LoadState Z :=
  let r := strtok_r pConfigDirective " " in
  let pArg := tok_save r in
  let directive := tok_buffer r in
  if String.eqb directive "@config" then ProcessConfigDirective pArg
  else if String.eqb directive "@include" then ProcessIncludeDirective pArg
  else if String.eqb directive "@require" then ProcessRequireDirective pArg
  else if String.eqb directive "@includedir"
       then ProcessIncludeDirDirective pArg
  else LogError "unknown directive" ;; ret ENOTSUP.

(** *** Lines *)

Definition ProcessConfigLine (pConfigLine : string) : M LoadState Z :=
  match pConfigLine with
  | EmptyString => ret EOK
  | String c _ =>
      if Ascii.eqb c "#" then ret EOK
      else if Ascii.eqb c "@" then ProcessDirective pConfigLine
      else ProcessVariableAssignment pConfigLine
  end.

(** The body of [if (pConfigData[i] == '\n' || pConfigData[i] == '\0')]:
    expand the line that ends here, process it, fold its return code into
    [result], and count the line.

    The line is processed in the working buffer, which is shared by all
    lines and of which [memset] clears [workbufSize] bytes.  Here the
    buffer is taken to read as the expansion and nothing else.  That is
    so for an expansion shorter than [workbufSize]; behind a longer one
    the buffer can still hold the end of an earlier line, see
    [WorkingBuffer.line_in_buffer] for what is read then.  Runs with such
    expansions are not covered by this definition. *)
Definition process_segment (line : string) (result : Z) : M LoadState Z :=
  st <- get ;;
  let (rc, workbuf) := TEMPLATE_StrToFile (hVarServer st) line in
  result' <-
    (if rc =? EOK then
       rc' <- ProcessConfigLine workbuf ;;
       if rc' =? EOK then ret result
       else LogError "Config error" ;; ret rc'
     else
       LogError "Variable Expansion error" ;; ret rc) ;;
  st' <- get ;;
  modify (set_lineno (lineno st' + 1)) ;;
  ret result'.

(** The [while (!done)] loop.  [rest] is the buffer from index [i] on and
    [line] the characters from [lineidx] up to [i].  The end of [rest] is
    the [NUL] that [calloc] left behind the data; a [NUL] inside the data
    ends the loop in the same way. *)
Fixpoint scan (rest line : string) (result : Z) : M LoadState Z :=
  match rest with
  | EmptyString => process_segment line result
  | String c rest' =>
      if Ascii.eqb c NUL then process_segment line result
      else if Ascii.eqb c LF then
        result' <- process_segment line result ;;
        scan rest' EmptyString result'
      else scan rest' (line ++ String c EmptyString) result
  end.

Definition ProcessConfigData_body (pConfigData : string) : M LoadState Z :=
  scan pConfigData EmptyString EOK.

(** *** Files *)

Definition ProcessConfigFile_body (filename : option string) : M LoadState Z :=
  match filename with
  | Some name =>
      emit (Enter name) ;;
      st <- get ;;
      let saveFileName := pFileName st in
      let saveLineNumber := lineno st in
      modify (set_lineno 1) ;;
      modify (set_pFileName (Some name)) ;;
      result <-
        match GetConfigData fs name with
        | Some pConfigData => ProcessConfigData_body pConfigData
        | None =>
            st1 <- get ;;
            if required st1 then ret EINVAL else ret EOK
        end ;;
      modify (set_pFileName saveFileName) ;;
      modify (set_lineno saveLineNumber) ;;
      when (negb (result =? EOK)) (emit (Failed name)) ;;
      ret result
  | None => ret EINVAL
  end.

End Body.

(** [depth] bounds the number of nested [ProcessConfigFile] activations. *)
Fixpoint ProcessConfigFile (depth : nat) (filename : option string) : M LoadState Z :=
  match depth with
  | O => fun _ => None
  | S d => ProcessConfigFile_body (ProcessConfigFile d) filename
  end.

Definition ProcessConfigData (depth : nat) : string -> M LoadState Z :=
  ProcessConfigData_body (ProcessConfigFile depth).

(** The part of [main] that runs once the server handle and the working
    buffer exist. *)
Definition main (depth : nat) : M LoadState Z :=
  modify (set_required true) ;;
  st <- get ;;
  ProcessConfigFile depth (pFileName st).

End Loader.

Arguments LoadState {VS}.

(** ** The line-by-line reading of a buffer

    The description of the loader speaks of a buffer as a sequence of
    lines, each expanded and processed in turn whatever happened to the
    lines before it, the result being the error of the last line that
    failed.  [split_lines], [run_lines] and [last_error] say that; the
    loop of the source is [scan]. *)

(** The segments of a buffer: cut at every line feed, up to the first
    [NUL] or the end of the data. *)
Fixpoint split_lines_from (rest line : string) : list string :=
  match rest with
  | EmptyString => [line]
  | String c rest' =>
      if Ascii.eqb c NUL then [line]
      else if Ascii.eqb c LF then line :: split_lines_from rest' EmptyString
      else split_lines_from rest' (line ++ String c EmptyString)
  end.

Definition split_lines (data : string) : list string :=
  split_lines_from data EmptyString.

(** Number of line feeds before the first [NUL]. *)
Fixpoint newlines (data : string) : nat :=
  match data with
  | EmptyString => O
  | String c rest =>
      if Ascii.eqb c NUL then O
      else if Ascii.eqb c LF then S (newlines rest)
      else newlines rest
  end.

(** [result = rc] under [if (rc != EOK)], as the loop does it *)
Definition fold_error (result rc : Z) : Z := if rc =? EOK then result else rc.

(** The error code of the last failing line, [EOK] when there is none:
    a failure further down the list wins over this line's own code. *)
Fixpoint last_error (rcs : list Z) : Z :=
  match rcs with
  | [] => EOK
  | rc :: more => if last_error more =? EOK then rc else last_error more
  end.

Section LineByLine.

Context {VS : VarServer}.
Variable fs : FileSystem.
Variable recurse : option string -> M LoadState Z.

(** One line: expand, process, report, count.  Answers the line's own
    return code. *)
Definition run_line (line : string) : M LoadState Z :=
  st <- get ;;
  let (rc, workbuf) := TEMPLATE_StrToFile (hVarServer st) line in
  rc' <-
    (if rc =? EOK then
       rc' <- ProcessConfigLine fs recurse workbuf ;;
       when (negb (rc' =? EOK)) (LogError "Config error") ;;
       ret rc'
     else
       LogError "Variable Expansion error" ;; ret rc) ;;
  st' <- get ;;
  modify (set_lineno (lineno st' + 1)) ;;
  ret rc'.

Fixpoint run_lines (lines : list string) : M LoadState (list Z) :=
  match lines with
  | [] => ret []
  | line :: more =>
      rc <- run_line line ;;
      rcs <- run_lines more ;;
      ret (rc :: rcs)
  end.

End LineByLine.

(** ** The working buffer

    [ProcessConfigData] does not process a line where it was read: the
    line is expanded into the shared memory object that
    [CreateWorkingBuffer] has mapped at [workbuf], and processed there.  A
    buffer is given by the bytes at the start of the object; behind them
    the object reads as [NUL]. *)

Module WorkingBuffer.






End WorkingBuffer.

(** ** Observations on traces and strings *)

(** The calls to the store's set operation, in order. *)
Fixpoint set_calls (tr : list Event) : list (string * string) :=
  match tr with
  | [] => []
  | SetCall name value :: tr' => (name, value) :: set_calls tr'
  | _ :: tr' => set_calls tr'
  end.

(** [s] holds none of the characters of [cs]. *)
Fixpoint free_of (cs s : string) : bool :=
  match s with
  | EmptyString => true
  | String c s' => negb (strchr cs c) && free_of cs s'
  end.

Definition nul_free (s : string) : bool := free_of (String NUL EmptyString) s.

Definition one_line (s : string) : bool :=
  free_of (String NUL (String LF EmptyString)) s.

Definition eol : string := String LF EmptyString.

(** ** Relations between the state before and after a computation *)

(** [m] relates every state it is started in to the state it returns. *)
Definition preserves {VS : VarServer} {A}
  (R : LoadState -> LoadState -> Prop) (m : M LoadState A) : Prop :=
  forall st a st', m st = Some (a, st') -> R st st'.

(** Same file name and same line number. *)
Definition same_place {VS : VarServer} (st st' : LoadState) : Prop :=
  pFileName st' = pFileName st /\ lineno st' = lineno st.

(** The trace only grows. *)
Definition extends {VS : VarServer} (st st' : LoadState) : Prop :=
  exists tl, trace st' = (trace st ++ tl)%list.

(** Whatever [m] returns, [m'] returns too. *)
Definition approx {VS : VarServer} {A} (m m' : M LoadState A) : Prop :=
  forall st r, m st = Some r -> m' st = Some r.

(** ** Kinds of files and lines *)

(** What the description calls failing the config-tag check: the file is
    missing or shorter than the tag, cannot be opened, or does not start
    with the tag. *)
Definition not_a_config_file (fs : FileSystem) (name : string) : Prop :=
  lstat fs name = None \/
  (GetFileSize fs name < taglen)%nat \/
  fopen fs name = None \/
  (exists fp, fopen fs name = Some fp /\ take taglen fp <> CONFIG_TAG).

(** Lines that the classifier hands to the assignment code. *)
Definition starts_assignment (line : string) : bool :=
  match line with
  | EmptyString => false
  | String c _ => negb (Ascii.eqb c "#") && negb (Ascii.eqb c "@")
  end.

(** ** A small variable server and file systems to run the loader on *)

Module Toy.

(** Variables live under [/]: setting any other name answers [ENOENT]. *)
Definition set_name_value (s : list (string * string)) (name value : string)
  : Z * list (string * string) :=
  match name with
  | String "/" _ => (EOK, (name, value) :: s)
  | _ => (ENOENT, s)
  end.

(** A line with a reference cannot be resolved; any other line expands to
    itself. *)
Definition str_to_file (s : list (string * string)) (line : string)
  : Z * string :=
  if strchr line "$" then (ENOENT, EmptyString) else (EOK, line).

Definition server : VarServer :=
  {| Store := list (string * string);
     VAR_SetNameValue := set_name_value;
     TEMPLATE_StrToFile := str_to_file |}.

Fixpoint lookup {A} (key : string) (table : list (string * A)) : option A :=
  match table with
  | [] => None
  | (k, a) :: more => if String.eqb k key then Some a else lookup key more
  end.

(** A file system of regular files and directory listings. *)
Definition mkfs (files : list (string * string))
  (dirs : list (string * list string)) : FileSystem :=
  {| lstat := fun path => option_map String.length (lookup path files);
     fopen := fun path => lookup path files;
     opendir := fun path => lookup path dirs |}.

Definition empty_fs : FileSystem := mkfs [] [].

(** The load state as [main] leaves it before the first call. *)
Definition initial (file : string) : @LoadState server :=
  {| hVarServer := (nil : @Store server); verbose := false;
     pFileName := Some file; lineno := 0; required := true; trace := [] |}.

(** A directory [conf.d] with a configuration file and another file. *)
Definition confd_fs : FileSystem :=
  mkfs [ ("conf.d/a.cfg", "@config a" ++ eol ++ "/sys/a 1" ++ eol);
         ("conf.d/notes.txt", "not a configuration") ]
       [ ("conf.d", ["."; ".."; "a.cfg"; "notes.txt"]) ].

(** A root file with a failing line in the middle and a nested file. *)
Definition nested_fs : FileSystem :=
  mkfs [ ("main.cfg",
          "@config main" ++ eol ++ "@bogus" ++ eol ++ "@include sub.cfg"
            ++ eol ++ "${x}" ++ eol ++ "/sys/x 1" ++ eol ++ "/sys/y=2");
         ("sub.cfg", "@config sub" ++ eol ++ "novalue" ++ eol ++ "=") ]
       [].

End Toy.

(** ** Further observations on lines, events and states *)

(** Equal but for the required flag. *)
Definition same_but_required {VS : VarServer} (s1 s2 : LoadState) : Prop :=
  set_required true s1 = set_required true s2.

(** Two runs end alike: both exceed the bound, or both return the same
    value in states that are equal but for the required flag. *)
Definition agree {VS : VarServer} {A} (r1 r2 : option (A * LoadState))
  : Prop :=
  match r1, r2 with
  | Some (a1, s1), Some (a2, s2) => a1 = a2 /\ same_but_required s1 s2
  | None, None => True
  | _, _ => False
  end.

(** [m] does not look at the required flag. *)
Definition respects {VS : VarServer} {A} (m : M LoadState A) : Prop :=
  forall s1 s2, same_but_required s1 s2 -> agree (m s1) (m s2).

(** What [ProcessDirective] compares with the directive names: the line
    up to its first blank. *)
Definition directive_of (line : string) : string :=
  tok_buffer (strtok_r line " ").

Definition known_directive (d : string) : bool :=
  String.eqb d "@config" || String.eqb d "@include"
  || String.eqb d "@require" || String.eqb d "@includedir".

(** Lines that make [ProcessConfigLine] enter another file. *)
Definition recurses (line : string) : bool :=
  match line with
  | String "@" _ =>
      let d := directive_of line in
      String.eqb d "@include" || String.eqb d "@require"
      || String.eqb d "@includedir"
  | _ => false
  end.

(** Lines that [ProcessConfigLine] ignores: empty, or starting with [#]. *)
Definition skipped (line : string) : bool :=
  match line with
  | EmptyString => true
  | String c _ => Ascii.eqb c "#"
  end.

(** [s] is made of characters of [cs] only. *)
Fixpoint only_of (cs s : string) : bool :=
  match s with
  | EmptyString => true
  | String c s' => strchr cs c && only_of cs s'
  end.

(** Events that are printed in verbose mode only. *)
Definition chatty (e : Event) : bool :=
  match e with
  | Processing _ | Including _ | ProcessingDirectory _ | Setting _ _ => true
  | _ => false
  end.

(** A message that names a file and a line of it. *)
Definition placed (e : Event) : Prop :=
  match e with
  | Log _ file line => file <> None /\ 1 <= line
  | _ => True
  end.

(** The store after a sequence of set calls. *)
Fixpoint replay {VS : VarServer} (calls : list (string * string))
  (h : Store) : Store :=
  match calls with
  | [] => h
  | (name, value) :: more =>
      replay more (snd (VAR_SetNameValue h name value))
  end.

(** In quiet mode, nothing chatty is added to the trace. *)
Definition stays_quiet {VS : VarServer} (st st' : LoadState) : Prop :=
  verbose st = false ->
  verbose st' = false /\
  exists tl, trace st' = (trace st ++ tl)%list /\
             Forall (fun e => chatty e = false) tl.

(** Every message added to the trace names a file and a line. *)
Definition messages_placed {VS : VarServer} (st st' : LoadState) : Prop :=
  exists tl, trace st' = (trace st ++ tl)%list /\ Forall placed tl.

(** The same, while a file is being processed. *)
Definition well_placed {VS : VarServer} (st st' : LoadState) : Prop :=
  pFileName st <> None /\ 1 <= lineno st ->
  pFileName st' <> None /\ 1 <= lineno st' /\ messages_placed st st'.

(** The store is what the set calls added to the trace make of it. *)
Definition store_replayed {VS : VarServer} (st st' : LoadState) : Prop :=
  exists tl, trace st' = (trace st ++ tl)%list /\
             hVarServer st' = replay (set_calls tl) (hVarServer st).

(** ** Start-up: options, working buffer, [main] *)

Module Startup.

(** *** The C library and the system, as the start-up code sees them *)

(** What [getopt (argC, argV, "hvf:w:")] hands to the loop of
    [ProcessOptions] at one call: the option character it returns and
    [optarg].  The loop ends when [getopt] answers -1, that is at the end
    of the list. *)
Record GetoptResult := { opt : ascii; optarg : string }.

Inductive SysResult (A : Type) : Type :=
| Ok (a : A)
| Err (errno : Z).

Arguments Ok {A} a.
Arguments Err {A} errno.

(** The answers of the system: the process id, [shm_open] (a descriptor),
    [ftruncate], [mmap], each with the value [errno] has when the code
    reads it after a failure, and whether [VARSERVER_Open] yields a
    handle. *)
Record System := {
  getpid : Z;
  shm_open : SysResult Z;
  ftruncate : SysResult unit;
  mmap : SysResult unit;
  VARSERVER_Open : bool
}.

(** What the start-up code does besides the effects recorded in the load
    state. *)
Inductive Console : Type :=
| UsageText (cmdname : string)       (* the usage message on stderr *)
| BufferError (errno : Z)            (* "CreateWorkingBuffer: %s" *)
| CallShmOpen (pid : Z)              (* shm_open ("/load_<pid>", ...) *)
| CallFtruncate (fd size : Z)
| CallMmap (fd size : Z)
| CallMunmap (size : Z)
| CallClose (fd : Z)
| CallShmUnlink (pid : option Z)     (* shm_unlink (clientname) *)
| CallServerClose
| Exit (status : Z).

(** [isspace] in the C locale *)
Definition isspace (c : ascii) : bool :=
  strchr (String " " (String "009" (String "010" (String "011"
            (String "012" (String "013" EmptyString)))))) c.

Definition digit (c : ascii) : option Z :=
  let n := Z.of_nat (nat_of_ascii c) in
  if (48 <=? n) && (n <=? 57) then Some (n - 48) else None.

(** the value of the leading decimal digits of [s], on top of [acc] *)
Fixpoint digits (s : string) (acc : Z) : Z :=
  match s with
  | EmptyString => acc
  | String c s' =>
      match digit c with
      | Some d => digits s' (10 * acc + d)
      | None => acc
      end
  end.

Definition LONG_MAX : Z := 2 ^ 63 - 1.
Definition LONG_MIN : Z := - 2 ^ 63.

(** [atol], which the GNU C library computes as [strtol (s, NULL, 10)]:
    white space, an optional sign, then digits up to the first character
    that is none; no digits give 0; a value out of range is clamped. *)
Definition atol (s : string) : Z :=
  let fix skip (s : string) : string :=
    match s with
    | String c s' => if isspace c then skip s' else s
    | EmptyString => s
    end in
  let value :=
    match skip s with
    | String "-" s' => - digits s' 0
    | String "+" s' => digits s' 0
    | s' => digits s' 0
    end in
  Z.max LONG_MIN (Z.min LONG_MAX value).

(** conversion of a [long] to the [int] field [workbufSize]; also the
    value of a sum of [int]s, which wraps around at [INT_MAX] *)
Definition to_int (z : Z) : Z := (z + 2 ^ 31) mod 2 ^ 32 - 2 ^ 31.

(** conversion to [size_t], and of a [size_t] to the [off_t] that
    [ftruncate] takes; both are 64 bits wide, as [long] is *)
Definition to_size_t (z : Z) : Z := z mod 2 ^ 64.

Definition to_off_t (z : Z) : Z := (z + 2 ^ 63) mod 2 ^ 64 - 2 ^ 63.

(** [BUFSIZ] of the GNU C library *)
Definition BUFSIZ : Z := 8192.

Definition DEFAULT_WORKBUF_SIZE : Z := BUFSIZ.

(** The argument of the last occurrence of option [c], if there is one. *)
Fixpoint last_arg (c : ascii) (results : list GetoptResult)
  : option string :=
  match results with
  | [] => None
  | r :: more =>
      match last_arg c more with
      | Some a => Some a
      | None => if Ascii.eqb (opt r) c then Some (optarg r) else None
      end
  end.

(** Whether option [c] occurs. *)
Definition given (c : ascii) (results : list GetoptResult) : bool :=
  existsb (fun r => Ascii.eqb (opt r) c) results.

Section Process.

Context {VS : VarServer}.
Variable fs : FileSystem.

(** the part of [main] between the creation and the destruction of the
    working buffer, as defined with the traversal *)
Definition traversal (depth : nat) : M LoadState Z := main fs depth.

(** The whole of [struct loadState]: the fields the traversal uses, and
    those of the working buffer; [clientname] is the process id the name
    ["/load_<pid>"] was made of, once it has been written; [workbuf] says
    whether the buffer is mapped. *)
Record Process := {
  state : LoadState;
  fd : Z;
  workbufSize : Z;
  workbuf : bool;
  clientname : option Z;
  console : list Console
}.

Definition with_state (f : LoadState -> LoadState) (p : Process) : Process :=
  {| state := f (state p); fd := fd p; workbufSize := workbufSize p;
     workbuf := workbuf p; clientname := clientname p;
     console := console p |}.

Definition set_workbufSize (n : Z) (p : Process) : Process :=
  {| state := state p; fd := fd p; workbufSize := n;
     workbuf := workbuf p; clientname := clientname p;
     console := console p |}.

Definition set_buffer (d : Z) (mapped : bool) (p : Process) : Process :=
  {| state := state p; fd := d; workbufSize := workbufSize p;
     workbuf := mapped; clientname := clientname p;
     console := console p |}.

Definition set_clientname (pid : Z) (p : Process) : Process :=
  {| state := state p; fd := fd p; workbufSize := workbufSize p;
     workbuf := workbuf p; clientname := Some pid;
     console := console p |}.

Definition print (c : Console) (p : Process) : Process :=
  {| state := state p; fd := fd p; workbufSize := workbufSize p;
     workbuf := workbuf p; clientname := clientname p;
     console := (console p ++ [c])%list |}.

Definition set_verbose (b : bool) (st : LoadState) : LoadState :=
  {| hVarServer := hVarServer st; verbose := b; pFileName := pFileName st;
     lineno := lineno st; required := required st; trace := trace st |}.

Definition usage (cmdname : option string) (p : Process) : Process :=
  match cmdname with
  | Some name => print (UsageText name) p
  | None => p
  end.

(** One turn of the [while] loop: the [switch] on the option character. *)
Definition process_option (argv0 : option string) (r : GetoptResult)
  (p : Process) : Process :=
  let c := opt r in
  if Ascii.eqb c "v" then with_state (set_verbose true) p
  else if Ascii.eqb c "h" then usage argv0 p
  else if Ascii.eqb c "f"
       then with_state (set_pFileName (Some (optarg r))) p
  else if Ascii.eqb c "w"
       then set_workbufSize (to_int (atol (optarg r))) p
  else p.

(** [ProcessOptions] returns 0 whatever it met. *)
Definition ProcessOptions (argv0 : option string)
  (results : list GetoptResult) (p : Process) : Z * Process :=
  (0, fold_left (fun q r => process_option argv0 r q) results p).

(** [size = pState->workbufSize + 1] adds two [int]s and stores the sum
    in a [size_t]: for a [workbufSize] of [INT_MAX] the sum wraps to
    [INT_MIN], which [mmap] is given as [2^64 - 2^31] and [ftruncate] as
    [- 2^31]. *)
Definition CreateWorkingBuffer (sys : System) (p : Process) : Z * Process :=
  let '(result, p') :=
    if 0 <? workbufSize p then
      let pid := getpid sys in
      let p1 := set_clientname pid p in
      let size := to_size_t (to_int (workbufSize p + 1)) in
      let p2 := print (CallShmOpen pid) p1 in
      match shm_open sys with
      | Ok d =>
          let p3 := print (CallFtruncate d (to_off_t size)) p2 in
          match ftruncate sys with
          | Ok _ =>
              let p4 := print (CallMmap d size) p3 in
              match mmap sys with
              | Ok _ => (EOK, set_buffer d true p4)
              | Err errno =>
                  (errno, print (CallClose d) (set_buffer (-1) false p4))
              end
          | Err errno =>
              (errno, print (CallClose d) (set_buffer (-1) false p3))
          end
      | Err errno => (errno, set_buffer (-1) false p2)
      end
    else (EINVAL, p) in
  if result =? EOK then (result, p')
  else (result, print (BufferError result) p').

Definition DestroyWorkingBuffer (p : Process) : Process :=
  let p1 :=
    if workbuf p
    then set_buffer (fd p) false (print (CallMunmap (workbufSize p)) p)
    else p in
  let p2 := if fd p1 =? -1 then p1 else print (CallClose (fd p1)) p1 in
  print (CallShmUnlink (clientname p2)) p2.

(** A computation on the load state, run inside the process. *)
Definition run {A} (m : M LoadState A) (p : Process)
  : option (A * Process) :=
  match m (state p) with
  | Some (a, st) => Some (a, with_state (fun _ => st) p)
  | None => None
  end.

(** The state [main] starts from: all zero but [fd] and [workbufSize];
    [h] is the state of the variable server that the handle will stand
    for. *)
Definition start (h : Store) : Process :=
  {| state := {| hVarServer := h; verbose := false; pFileName := None;
                 lineno := 0; required := false; trace := [] |};
     fd := -1; workbufSize := DEFAULT_WORKBUF_SIZE; workbuf := false;
     clientname := None; console := [] |}.

(** [main]; [None] when the traversal exceeds the bound [depth]. *)
Definition main (argc : Z) (argv0 : option string) (sys : System)
  (results : list GetoptResult) (h : Store) (depth : nat)
  : option Process :=
  let p := start h in
  if argc <? 2 then Some (print (Exit 1) (usage argv0 p))
  else
    let '(_, p1) := ProcessOptions argv0 results p in
    if VARSERVER_Open sys then
      let '(rc, p2) := CreateWorkingBuffer sys p1 in
      if rc =? EOK then
        match run (traversal depth) p2 with
        | Some (_, p3) =>
            Some (print CallServerClose (DestroyWorkingBuffer p3))
        | None => None
        end
      else
        match run (LogError "Cannot create working buffer") p2 with
        | Some (_, p3) => Some (print CallServerClose p3)
        | None => None
        end
    else Some p1.

End Process.

End Startup.

(** ** Systems and command lines to start the loader on *)

Module ToyStartup.

Import Startup.

Definition healthy : System :=
  {| getpid := 4711; shm_open := Ok 3; ftruncate := Ok tt; mmap := Ok tt;
     VARSERVER_Open := true |}.

(** [mmap] fails with [ENOMEM]. *)
Definition no_map : System :=
  {| getpid := 4711; shm_open := Ok 3; ftruncate := Ok tt; mmap := Err 12;
     VARSERVER_Open := true |}.

Definition flag (c : ascii) : GetoptResult :=
  {| opt := c; optarg := EmptyString |}.

Definition with_arg (c : ascii) (a : string) : GetoptResult :=
  {| opt := c; optarg := a |}.

(** [-v -f sub.cfg -h -f main.cfg] *)
Definition verbose_main : list GetoptResult :=
  [flag "v"; with_arg "f" "sub.cfg"; flag "h"; with_arg "f" "main.cfg"].

(** [-w abc -f main.cfg] *)
Definition bad_size : list GetoptResult :=
  [with_arg "w" "abc"; with_arg "f" "main.cfg"].

(** A file that starts with the tag glued to more text. *)
Definition glued_fs : FileSystem :=
  Toy.mkfs [("odd.cfg", "@configuration")] [].

(** The store of the toy server before any call. *)
Definition empty_store : @Store Toy.server := nil.

(** Comments and empty lines only. *)
Definition remarks : string :=
  "# first" ++ eol ++ eol ++ "# last".

End ToyStartup.

(** * Properties *)

(** ** The monad *)

Lemma bind_Some {S A B} (m : M S A) (k : A -> M S B) st b st' :
  bind m k st = Some (b, st') <->
  exists a s1, m st = Some (a, s1) /\ k a s1 = Some (b, st').
Proof.
  unfold bind. split.
  - destruct (m st) as [[a s1]|]; [|discriminate].
    intros Hk. exists a, s1. split; [reflexivity|exact Hk].
  - intros (a & s1 & Hm & Hk). rewrite Hm. exact Hk.
Qed.

Lemma bind_None {S A B} (m : M S A) (k : A -> M S B) st :
  m st = None -> bind m k st = None.
Proof. unfold bind. intros ->. reflexivity. Qed.

Lemma bind_step {S A B} (m : M S A) (k : A -> M S B) st a s1 :
  m st = Some (a, s1) -> bind m k st = k a s1.
Proof. unfold bind. intros ->. reflexivity. Qed.

(** ** C strings *)

Lemma take_length_le n s : (String.length (take n s) <= n)%nat.
Proof.
  revert s. induction n as [|n IH]; intros [|c s]; simpl; try lia.
  specialize (IH s). lia.
Qed.

Lemma take_app_exact s t : take (String.length s) (s ++ t) = s.
Proof. induction s as [|c s IH]; simpl; [destruct t|rewrite IH]; reflexivity. Qed.

Lemma drop_app_exact s t : drop (String.length s) (s ++ t) = t.
Proof. induction s as [|c s IH]; simpl; [destruct t; reflexivity|exact IH]. Qed.

Lemma strchr_app s t c : strchr (s ++ t) c = strchr s c || strchr t c.
Proof.
  induction s as [|d s IH]; simpl; [reflexivity|].
  destruct (Ascii.eqb d c); [reflexivity|exact IH].
Qed.

(** A string free of the delimiters is skipped whole by [strcspn], which
    stops at a delimiter that follows it. *)
Lemma strcspn_free delim s c t :
  free_of delim s = true -> strchr delim c = true ->
  strcspn (s ++ String c t) delim = String.length s.
Proof.
  intros Hs Hc. induction s as [|d s IH]; simpl in *.
  - rewrite Hc. reflexivity.
  - apply andb_true_iff in Hs as [Hd Hs].
    apply negb_true_iff in Hd. rewrite Hd, (IH Hs). reflexivity.
Qed.

Lemma free_of_strchr cs s c :
  free_of cs s = true -> strchr cs c = true -> strchr s c = false.
Proof.
  intros Hs Hc. induction s as [|d s IH]; simpl in *; [reflexivity|].
  apply andb_true_iff in Hs as [Hd Hs]. apply negb_true_iff in Hd.
  destruct (Ascii.eqb_spec d c) as [->|_]; [congruence|exact (IH Hs)].
Qed.

(** ** Loading a file *)

Lemma IsConfigFile_spec fp :
  IsConfigFile fp = true <-> take taglen fp = CONFIG_TAG.
Proof.
  unfold IsConfigFile, strncmp_eq, fread.
  rewrite String.eqb_eq.
  assert (Hidem : take taglen (take taglen fp) = take taglen fp).
  { generalize taglen. intros n. revert fp.
    induction n as [|n IH]; intros [|c s]; simpl; try reflexivity.
    rewrite IH. reflexivity. }
  rewrite Hidem. reflexivity.
Qed.

Lemma GetConfigData_Some fs filename data :
  GetConfigData fs filename = Some data <->
  (taglen <= GetFileSize fs filename)%nat /\
  exists fp, fopen fs filename = Some fp /\
             take taglen fp = CONFIG_TAG /\
             data = take (GetFileSize fs filename) fp.
Proof.
  unfold GetConfigData, ReadConfigData, fread. split.
  - destruct (Nat.leb_spec taglen (GetFileSize fs filename)) as [Hle|Hlt];
      [|discriminate].
    destruct (fopen fs filename) as [fp|]; [|discriminate].
    destruct (IsConfigFile fp) eqn:Htag; [|discriminate].
    intros [= <-]. split; [exact Hle|].
    exists fp. apply IsConfigFile_spec in Htag. auto.
  - intros (Hle & fp & Hopen & Htag & ->).
    apply Nat.leb_le in Hle. rewrite Hle, Hopen.
    apply IsConfigFile_spec in Htag. rewrite Htag. reflexivity.
Qed.

Lemma GetConfigData_None fs filename :
  GetConfigData fs filename = None <-> not_a_config_file fs filename.
Proof.
  unfold not_a_config_file. split.
  - unfold GetConfigData, ReadConfigData.
    destruct (Nat.leb_spec taglen (GetFileSize fs filename)) as [Hle|Hlt];
      [|auto].
    destruct (fopen fs filename) as [fp|]; [|auto].
    destruct (IsConfigFile fp) eqn:Htag; [discriminate|].
    intros _. right. right. right. exists fp. split; [reflexivity|].
    intros Heq. apply IsConfigFile_spec in Heq. congruence.
  - intros Hcause.
    destruct (GetConfigData fs filename) as [data|] eqn:Hget; [|reflexivity].
    apply GetConfigData_Some in Hget as (Hle & fp & Hopen & Htag & _).
    destruct Hcause as [Hstat|[Hlt|[Hnone|(fp' & Hopen' & Hne)]]].
    + unfold GetFileSize in Hle. rewrite Hstat in Hle.
      unfold taglen in Hle. simpl in Hle. lia.
    + lia.
    + congruence.
    + rewrite Hopen in Hopen'. injection Hopen' as <-. contradiction.
Qed.

(** C7: a file shorter than the tag, or whose first bytes are not the
    tag, yields no configuration data, whatever follows those bytes; a
    file yields data exactly when it passes both checks, and the data are
    then the first [st_size] bytes of the file. *)
Theorem GetConfigData_tag_check fs filename :
  ((GetFileSize fs filename < taglen)%nat ->
   GetConfigData fs filename = None) /\
  (forall lead rest,
     fopen fs filename = Some (lead ++ rest) ->
     String.length lead = taglen -> lead <> CONFIG_TAG ->
     GetConfigData fs filename = None) /\
  (forall data,
     GetConfigData fs filename = Some data <->
     (taglen <= GetFileSize fs filename)%nat /\
     exists fp, fopen fs filename = Some fp /\
                take taglen fp = CONFIG_TAG /\
                data = take (GetFileSize fs filename) fp).
Proof.
  split; [|split].
  - intros Hlt. unfold GetConfigData.
    apply Nat.leb_gt in Hlt. rewrite Hlt. reflexivity.
  - intros lead rest Hopen Hlen Hne.
    destruct (GetConfigData fs filename) as [data|] eqn:Hget; [|reflexivity].
    apply GetConfigData_Some in Hget as (_ & fp & Hopen' & Htag & _).
    rewrite Hopen in Hopen'. injection Hopen' as <-.
    rewrite <- Hlen, take_app_exact in Htag. contradiction.
  - intros data. apply GetConfigData_Some.
Qed.

(** ** Computations that respect a relation between states *)

Section Preservation.

Context {VS : VarServer}.
Variable fs : FileSystem.
Variable R : LoadState -> LoadState -> Prop.
Hypothesis R_refl : forall st, R st st.
Hypothesis R_trans : forall a b c, R a b -> R b c -> R a c.

Lemma preserves_ret {A} (a : A) : preserves R (ret a).
Proof. intros st a' st' [= _ <-]. apply R_refl. Qed.

Lemma preserves_get : preserves R get.
Proof. intros st a st' [= _ <-]. apply R_refl. Qed.

Lemma preserves_bind {A B} (m : M LoadState A) (k : A -> M LoadState B) :
  preserves R m -> (forall a, preserves R (k a)) -> preserves R (bind m k).
Proof.
  intros Hm Hk st b st' Hrun.
  apply bind_Some in Hrun as (a & s1 & H1 & H2).
  exact (R_trans _ _ _ (Hm _ _ _ H1) (Hk _ _ _ _ H2)).
Qed.

Lemma preserves_modify f :
  (forall st, R st (f st)) -> preserves R (modify f).
Proof. intros Hf st a st' [= _ <-]. apply Hf. Qed.

Lemma preserves_when b m : preserves R m -> preserves R (when b m).
Proof. destruct b; simpl; [auto|intros _; apply preserves_ret]. Qed.

Hypothesis R_event : forall e st, R st (add_event e st).
Hypothesis R_store : forall h st, R st (set_hVarServer h st).

Lemma preserves_emit e : preserves R (emit e).
Proof. apply preserves_modify, R_event. Qed.

Lemma preserves_say e : preserves R (say e).
Proof.
  apply preserves_bind; [apply preserves_get|].
  intros st. apply preserves_when, preserves_emit.
Qed.

Lemma preserves_LogError msg : preserves R (LogError msg).
Proof.
  apply preserves_bind; [apply preserves_get|].
  intros st. apply preserves_emit.
Qed.

Lemma preserves_set name value : preserves R (call_VAR_SetNameValue name value).
Proof.
  intros st rc st'. unfold call_VAR_SetNameValue.
  destruct (VAR_SetNameValue _ _ _) as [rc' h]. intros [= _ <-].
  exact (R_trans _ _ _ (R_event _ _) (R_store _ _)).
Qed.

Lemma preserves_ProcessVariableAssignment line :
  preserves R (ProcessVariableAssignment line).
Proof.
  unfold ProcessVariableAssignment.
  destruct (tok_token _) as [pVar|]; [destruct (tok_save _) as [pVal|]|].
  - apply preserves_bind; [apply preserves_say|intros _].
    apply preserves_bind; [apply preserves_set|intros rc].
    apply preserves_bind; [|intros _; apply preserves_ret].
    apply preserves_when. destruct (rc =? ENOENT); apply preserves_LogError.
  - apply preserves_bind; [apply preserves_LogError|intros _; apply preserves_ret].
  - apply preserves_bind; [apply preserves_LogError|intros _; apply preserves_ret].
Qed.

Lemma preserves_ProcessConfigDirective pInfo :
  preserves R (ProcessConfigDirective pInfo).
Proof.
  destruct pInfo as [info|]; simpl; [|apply preserves_ret].
  apply preserves_bind; [apply preserves_say|intros _; apply preserves_ret].
Qed.

(** *** What re-enters [ProcessConfigFile] *)

Variable recurse : option string -> M LoadState Z.

(** Every recursive call is made right after the required flag has been
    written; this is the only assumption on it. *)
Hypothesis R_call :
  forall b f st rc st',
    recurse f (set_required b st) = Some (rc, st') -> R st st'.

Lemma preserves_enter b e f :
  preserves R (modify (set_required b) ;; say e ;; recurse f).
Proof.
  intros st rc st' Hrun. cbv [bind modify say get when emit ret] in Hrun.
  simpl in Hrun. destruct (verbose st).
  - change (add_event e (set_required b st))
      with (set_required b (add_event e st)) in Hrun.
    exact (R_trans _ _ _ (R_event e st) (R_call _ _ _ _ _ Hrun)).
  - exact (R_call _ _ _ _ _ Hrun).
Qed.

Lemma preserves_ProcessIncludeDirective pFilename :
  preserves R (ProcessIncludeDirective recurse pFilename).
Proof.
  destruct pFilename as [f|]; simpl; [apply preserves_enter|apply preserves_ret].
Qed.

Lemma preserves_ProcessRequireDirective pFilename :
  preserves R (ProcessRequireDirective recurse pFilename).
Proof.
  destruct pFilename as [f|]; simpl; [apply preserves_enter|apply preserves_ret].
Qed.

Lemma preserves_readdir_loop entries :
  preserves R (readdir_loop recurse entries).
Proof.
  induction entries as [|d_name more IH]; simpl; [apply preserves_ret|].
  intros st u st' Hrun.
  apply bind_Some in Hrun as ([] & s1 & [= <-] & Hrun).
  apply bind_Some in Hrun as (rc & s2 & Hcall & Hrun).
  exact (R_trans _ _ _ (R_call _ _ _ _ _ Hcall) (IH _ _ _ Hrun)).
Qed.

Lemma preserves_ProcessIncludeDirDirective pDirname :
  preserves R (ProcessIncludeDirDirective fs recurse pDirname).
Proof.
  destruct pDirname as [d|]; simpl; [|apply preserves_ret].
  apply preserves_bind; [apply preserves_say|intros _].
  apply preserves_bind; [|intros _; apply preserves_ret].
  destruct (opendir fs d); [apply preserves_readdir_loop|apply preserves_ret].
Qed.

Lemma preserves_ProcessDirective line :
  preserves R (ProcessDirective fs recurse line).
Proof.
  unfold ProcessDirective.
  destruct (String.eqb _ "@config"); [apply preserves_ProcessConfigDirective|].
  destruct (String.eqb _ "@include"); [apply preserves_ProcessIncludeDirective|].
  destruct (String.eqb _ "@require"); [apply preserves_ProcessRequireDirective|].
  destruct (String.eqb _ "@includedir");
    [apply preserves_ProcessIncludeDirDirective|].
  apply preserves_bind; [apply preserves_LogError|intros _; apply preserves_ret].
Qed.

Lemma preserves_ProcessConfigLine line :
  preserves R (ProcessConfigLine fs recurse line).
Proof.
  destruct line as [|c line]; simpl; [apply preserves_ret|].
  destruct (Ascii.eqb c "#"); [apply preserves_ret|].
  destruct (Ascii.eqb c "@");
    [apply preserves_ProcessDirective|apply preserves_ProcessVariableAssignment].
Qed.

(** *** Relations that also tolerate a change of file name and line *)

Hypothesis R_lineno : forall n st, R st (set_lineno n st).
Hypothesis R_file : forall f st, R st (set_pFileName f st).

Lemma preserves_process_segment line result :
  preserves R (process_segment fs recurse line result).
Proof.
  unfold process_segment.
  apply preserves_bind; [apply preserves_get|intros st].
  destruct (TEMPLATE_StrToFile _ _) as [rc workbuf].
  apply preserves_bind.
  - destruct (rc =? EOK).
    + apply preserves_bind; [apply preserves_ProcessConfigLine|intros rc'].
      destruct (rc' =? EOK); [apply preserves_ret|].
      apply preserves_bind;
        [apply preserves_LogError|intros _; apply preserves_ret].
    + apply preserves_bind;
        [apply preserves_LogError|intros _; apply preserves_ret].
  - intros result'.
    apply preserves_bind; [apply preserves_get|intros st1].
    apply preserves_bind; [|intros _; apply preserves_ret].
    apply preserves_modify, R_lineno.
Qed.

Lemma preserves_scan rest :
  forall line result, preserves R (scan fs recurse rest line result).
Proof.
  induction rest as [|c rest IH]; intros line result; simpl.
  - apply preserves_process_segment.
  - destruct (Ascii.eqb c NUL); [apply preserves_process_segment|].
    destruct (Ascii.eqb c LF); [|apply IH].
    apply preserves_bind; [apply preserves_process_segment|intros r; apply IH].
Qed.

(** everything [ProcessConfigFile] does once it has announced the file *)
Lemma preserves_file_rest name :
  preserves R
    (st <- get ;;
     modify (set_lineno 1) ;;
     modify (set_pFileName (Some name)) ;;
     result <-
       match GetConfigData fs name with
       | Some pConfigData => ProcessConfigData_body fs recurse pConfigData
       | None => st1 <- get ;; if required st1 then ret EINVAL else ret EOK
       end ;;
     modify (set_pFileName (pFileName st)) ;;
     modify (set_lineno (lineno st)) ;;
     when (negb (result =? EOK)) (emit (Failed name)) ;;
     ret result).
Proof.
  apply preserves_bind; [apply preserves_get|intros st].
  apply preserves_bind; [apply preserves_modify, R_lineno|intros _].
  apply preserves_bind; [apply preserves_modify, R_file|intros _].
  apply preserves_bind.
  - destruct (GetConfigData fs name); [apply preserves_scan|].
    apply preserves_bind; [apply preserves_get|intros st1].
    destruct (required st1); apply preserves_ret.
  - intros result.
    apply preserves_bind; [apply preserves_modify, R_file|intros _].
    apply preserves_bind; [apply preserves_modify, R_lineno|intros _].
    apply preserves_bind; [|intros _; apply preserves_ret].
    apply preserves_when, preserves_emit.
Qed.

Lemma preserves_ProcessConfigFile_body filename :
  preserves R (ProcessConfigFile_body fs recurse filename).
Proof.
  destruct filename as [name|]; simpl; [|apply preserves_ret].
  apply preserves_bind; [apply preserves_emit|intros _].
  apply preserves_file_rest.
Qed.

End Preservation.

(** ** The caller's place survives a nested file *)

Section Frames.

Context {VS : VarServer}.
Variable fs : FileSystem.

Lemma same_place_refl st : same_place st st.
Proof. split; reflexivity. Qed.

Lemma same_place_trans a b c :
  same_place a b -> same_place b c -> same_place a c.
Proof. intros [H1 H2] [H3 H4]. split; congruence. Qed.

Lemma extends_refl st : extends st st.
Proof. exists []. symmetry. apply app_nil_r. Qed.

Lemma extends_trans a b c : extends a b -> extends b c -> extends a c.
Proof.
  intros [t1 H1] [t2 H2]. exists (t1 ++ t2)%list.
  rewrite H2, H1, app_assoc. reflexivity.
Qed.

(** The restore at the end of [ProcessConfigFile] does not depend on what
    happened in between. *)
Lemma ProcessConfigFile_body_restores recurse filename st rc st' :
  ProcessConfigFile_body fs recurse filename st = Some (rc, st') ->
  same_place st st'.
Proof.
  destruct filename as [name|]; simpl;
    [|intros [= _ <-]; apply same_place_refl].
  intros H.
  apply bind_Some in H as ([] & s1 & [= <-] & H).
  apply bind_Some in H as (s & s2 & [= <- <-] & H).
  apply bind_Some in H as ([] & s3 & [= <-] & H).
  apply bind_Some in H as ([] & s4 & [= <-] & H).
  apply bind_Some in H as (result & s5 & _ & H).
  apply bind_Some in H as ([] & s6 & [= <-] & H).
  apply bind_Some in H as ([] & s7 & [= <-] & H).
  apply bind_Some in H as ([] & s8 & Hw & [= _ <-]).
  destruct (negb (result =? EOK)); simpl in Hw; injection Hw as <-;
    split; reflexivity.
Qed.

Lemma ProcessConfigFile_restores depth filename st rc st' :
  ProcessConfigFile fs depth filename st = Some (rc, st') ->
  same_place st st'.
Proof.
  destruct depth as [|d]; simpl; [discriminate|].
  apply ProcessConfigFile_body_restores.
Qed.

Lemma ProcessConfigLine_same_place depth line :
  preserves same_place (ProcessConfigLine fs (ProcessConfigFile fs depth) line).
Proof.
  apply preserves_ProcessConfigLine.
  - exact same_place_refl.
  - exact same_place_trans.
  - intros e st. split; reflexivity.
  - intros h st. split; reflexivity.
  - intros b f st rc st' Hrun.
    apply ProcessConfigFile_restores in Hrun. exact Hrun.
Qed.

Lemma ProcessConfigFile_extends depth :
  forall filename, preserves extends (ProcessConfigFile fs depth filename).
Proof.
  induction depth as [|d IH]; intros filename; simpl.
  - intros st rc st'. discriminate.
  - apply preserves_ProcessConfigFile_body.
    + exact extends_refl.
    + exact extends_trans.
    + intros e st. exists [e]. reflexivity.
    + intros h st. exact (extends_refl st).
    + intros b f st rc st' Hrun. apply IH in Hrun. exact Hrun.
    + intros n st. exact (extends_refl st).
    + intros f st. exact (extends_refl st).
Qed.

Lemma ProcessConfigFile_verbose depth :
  forall filename,
    preserves (fun st st' => verbose st' = verbose st)
              (ProcessConfigFile fs depth filename).
Proof.
  induction depth as [|d IH]; intros filename; simpl.
  - intros st rc st'. discriminate.
  - apply preserves_ProcessConfigFile_body; try reflexivity.
    + intros a b c. congruence.
    + intros b f st rc st' Hrun. apply IH in Hrun. exact Hrun.
Qed.

(** A file processed without any nested file leaves the required flag
    alone: only the directives that recurse write it. *)
Lemma ProcessConfigFile_flat_required filename :
  preserves (fun st st' => required st' = required st)
            (ProcessConfigFile fs 1 filename).
Proof.
  simpl. apply preserves_ProcessConfigFile_body; try reflexivity.
  - intros a b c. congruence.
  - intros b f st rc st'. discriminate.
Qed.

End Frames.

(** ** Directives with an argument *)

Section Directives.

Context {VS : VarServer}.
Variable fs : FileSystem.
Variable recurse : option string -> M LoadState Z.

Lemma line_include arg :
  ProcessConfigLine fs recurse ("@include " ++ arg)
  = ProcessIncludeDirective recurse (Some arg).
Proof. reflexivity. Qed.

Lemma line_require arg :
  ProcessConfigLine fs recurse ("@require " ++ arg)
  = ProcessRequireDirective recurse (Some arg).
Proof. reflexivity. Qed.

Lemma line_includedir arg :
  ProcessConfigLine fs recurse ("@includedir " ++ arg)
  = ProcessIncludeDirDirective fs recurse (Some arg).
Proof. reflexivity. Qed.

Lemma line_config arg :
  ProcessConfigLine fs recurse ("@config " ++ arg)
  = ProcessConfigDirective (Some arg).
Proof. reflexivity. Qed.

End Directives.

(** ** Missing and mandatory files *)

Section Missing.

Context {VS : VarServer}.
Variable fs : FileSystem.

Lemma ProcessConfigFile_not_loaded depth name st :
  GetConfigData fs name = None ->
  ProcessConfigFile fs (S depth) (Some name) st
  = Some (if required st
          then (EINVAL, add_event (Failed name) (add_event (Enter name) st))
          else (EOK, add_event (Enter name) st)).
Proof.
  intros Hget. simpl.
  cbv [ProcessConfigFile_body bind emit modify get ret when].
  rewrite Hget. destruct st as [h v f n r tr]; destruct r; reflexivity.
Qed.

(** C1: when the target fails the config-tag check (it is missing, too
    short, unreadable or without the leading tag), [ProcessConfigFile]
    answers [EOK] if the required flag is false and the error [EINVAL] if
    it is true.  So [@include] of such a file succeeds, [@require] of it
    fails, and that failure becomes the result of the line and the
    aggregate of the enclosing buffer at that point. *)
Theorem missing_target_result depth name st :
  not_a_config_file fs name ->
  (required st = false ->
   ProcessConfigFile fs (S depth) (Some name) st
   = Some (EOK, add_event (Enter name) st)) /\
  (required st = true ->
   ProcessConfigFile fs (S depth) (Some name) st
   = Some (EINVAL, add_event (Failed name) (add_event (Enter name) st))) /\
  (exists st',
     ProcessConfigLine fs (ProcessConfigFile fs (S depth))
       ("@include " ++ name) st = Some (EOK, st')) /\
  (exists st',
     ProcessConfigLine fs (ProcessConfigFile fs (S depth))
       ("@require " ++ name) st = Some (EINVAL, st')) /\
  (forall raw result,
     TEMPLATE_StrToFile (hVarServer st) raw = (EOK, "@require " ++ name) ->
     exists st',
       process_segment fs (ProcessConfigFile fs (S depth)) raw result st
       = Some (EINVAL, st')).
Proof.
  intros Hget. apply GetConfigData_None in Hget.
  assert (Hinc : forall s, exists st',
    ProcessIncludeDirective (ProcessConfigFile fs (S depth)) (Some name) s
    = Some (EOK, st')).
  { intros s. unfold ProcessIncludeDirective.
    cbv [bind modify say get when emit ret].
    destruct (verbose (set_required false s));
      rewrite (ProcessConfigFile_not_loaded _ _ _ Hget); simpl; eauto. }
  assert (Hreq : forall s, exists st',
    ProcessRequireDirective (ProcessConfigFile fs (S depth)) (Some name) s
    = Some (EINVAL, st')).
  { intros s. unfold ProcessRequireDirective.
    cbv [bind modify say get when emit ret].
    destruct (verbose (set_required true s));
      rewrite (ProcessConfigFile_not_loaded _ _ _ Hget); simpl; eauto. }
  repeat split.
  - intros Hr. rewrite (ProcessConfigFile_not_loaded _ _ _ Hget), Hr.
    reflexivity.
  - intros Hr. rewrite (ProcessConfigFile_not_loaded _ _ _ Hget), Hr.
    reflexivity.
  - rewrite line_include. apply Hinc.
  - rewrite line_require. apply Hreq.
  - intros raw result Hexp. unfold process_segment.
    rewrite (bind_step _ _ st st st eq_refl), Hexp.
    change (EOK =? EOK) with true. cbv iota.
    rewrite line_require.
    destruct (Hreq st) as [s1 Hs1].
    erewrite bind_step;
      [|erewrite bind_step; [|exact Hs1]; reflexivity].
    cbv [bind modify get ret]. eauto.
Qed.

End Missing.

(** ** Entering and leaving a file *)

Section Places.

Context {VS : VarServer}.
Variable fs : FileSystem.

(** C3: [ProcessConfigFile] processes the data of its target in a state
    whose line counter is 1 and whose current file is the target, and
    whenever it returns, with success or with an error, the file name and
    the line number are those the caller had before the call. *)
Theorem nested_file_place depth name st :
  let entered :=
    set_pFileName (Some name) (set_lineno 1 (add_event (Enter name) st)) in
  (lineno entered = 1 /\ pFileName entered = Some name) /\
  (forall data,
     GetConfigData fs name = Some data ->
     ProcessConfigFile fs (S depth) (Some name) st
     = match ProcessConfigData fs depth data entered with
       | Some (rc, st1) =>
           let back :=
             set_lineno (lineno st) (set_pFileName (pFileName st) st1) in
           Some (rc, if rc =? EOK then back
                     else add_event (Failed name) back)
       | None => None
       end) /\
  (forall filename rc st',
     ProcessConfigFile fs depth filename st = Some (rc, st') ->
     pFileName st' = pFileName st /\ lineno st' = lineno st).
Proof.
  cbv zeta. split; [split; reflexivity|]. split.
  - intros data Hget. simpl.
    cbv [ProcessConfigFile_body bind emit modify get ret when].
    rewrite Hget. unfold ProcessConfigData.
    destruct (ProcessConfigData_body _ _ _ _) as [[rc st1]|]; [|reflexivity].
    destruct (rc =? EOK); reflexivity.
  - intros filename rc st' Hrun.
    exact (ProcessConfigFile_restores fs _ _ _ _ _ Hrun).
Qed.

Lemma readdir_loop_flat_required entries :
  forall st u st',
    readdir_loop (ProcessConfigFile fs 1) entries st = Some (u, st') ->
    entries <> [] -> required st' = false.
Proof.
  induction entries as [|d_name more IH]; intros st u st' Hrun Hne;
    [contradiction|].
  cbn [readdir_loop] in Hrun.
  apply bind_Some in Hrun as ([] & s1 & [= <-] & Hrun).
  apply bind_Some in Hrun as (rc & s2 & Hcall & Hrun).
  apply ProcessConfigFile_flat_required in Hcall. cbn [required set_required] in Hcall.
  destruct more as [|e more].
  - injection Hrun as _ <-. exact Hcall.
  - apply (IH _ _ _ Hrun). discriminate.
Qed.

Lemma enter_flat_required b e f st rc st' :
  (modify (set_required b) ;; say e ;; ProcessConfigFile fs 1 f) st
  = Some (rc, st') ->
  required st' = b.
Proof.
  intros Hrun.
  apply bind_Some in Hrun as ([] & s1 & [= <-] & Hrun).
  apply bind_Some in Hrun as ([] & s2 & Hsay & Hrun).
  apply ProcessConfigFile_flat_required in Hrun. rewrite Hrun.
  cbv [say bind get when emit modify ret] in Hsay.
  destruct (verbose (set_required b st)); injection Hsay as <-; reflexivity.
Qed.

(** C4, as the code has it: one load state is threaded through the
    traversal; around every recursion started by a directive the caller's
    file name and line number are saved and restored, but the required
    flag is not: it is written by the directive before the call and never
    restored, so after a directive whose target does not recurse further
    it is false for [@include] and for [@includedir] over a non-empty
    directory, and true for [@require], whatever it was before. *)
Theorem directive_recursion_frame :
  (forall depth line st rc st',
     ProcessConfigLine fs (ProcessConfigFile fs depth) line st
     = Some (rc, st') ->
     pFileName st' = pFileName st /\ lineno st' = lineno st) /\
  (forall f st rc st',
     ProcessIncludeDirective (ProcessConfigFile fs 1) (Some f) st
     = Some (rc, st') ->
     required st' = false) /\
  (forall f st rc st',
     ProcessRequireDirective (ProcessConfigFile fs 1) (Some f) st
     = Some (rc, st') ->
     required st' = true) /\
  (forall dir entries st rc st',
     opendir fs dir = Some entries -> entries <> [] ->
     ProcessIncludeDirDirective fs (ProcessConfigFile fs 1) (Some dir) st
     = Some (rc, st') ->
     required st' = false).
Proof.
  repeat split.
  - exact (proj1 (ProcessConfigLine_same_place fs _ _ _ _ _ H)).
  - exact (proj2 (ProcessConfigLine_same_place fs _ _ _ _ _ H)).
  - intros f st rc st'. apply enter_flat_required.
  - intros f st rc st'. apply enter_flat_required.
  - intros dir entries st rc st' Hdir Hne Hrun.
    unfold ProcessIncludeDirDirective in Hrun. rewrite Hdir in Hrun.
    apply bind_Some in Hrun as ([] & s1 & _ & Hrun).
    apply bind_Some in Hrun as ([] & s2 & Hloop & [= _ <-]).
    exact (readdir_loop_flat_required _ _ _ _ Hloop Hne).
Qed.

End Places.

(** C4 as stated fails: the required flag of the caller is true before
    [@include missing.cfg] and false after it. *)
Lemma required_flag_not_restored :
  ~ (forall (VS : VarServer) (fs : FileSystem) depth line
            (st : LoadState) rc st',
       ProcessConfigLine fs (ProcessConfigFile fs depth) line st
       = Some (rc, st') ->
       required st' = required st).
Proof.
  intros H.
  specialize (H Toy.server Toy.empty_fs 1%nat "@include missing.cfg"
                (Toy.initial "main.cfg") _ _ eq_refl).
  discriminate H.
Qed.

(** ** The loop over a buffer, line by line *)

Lemma bind_assoc {S A B C} (m : M S A) (k : A -> M S B) (k' : B -> M S C) st :
  bind (bind m k) k' st = bind m (fun a => bind (k a) k') st.
Proof. unfold bind. destruct (m st) as [[a s1]|]; reflexivity. Qed.

Lemma bind_ext {S A B} (m : M S A) (k k' : A -> M S B) st :
  (forall a s, k a s = k' a s) -> bind m k st = bind m k' st.
Proof. intros H. unfold bind. destruct (m st) as [[a s1]|]; [apply H|reflexivity]. Qed.

Lemma bind_congr {S A B} (m m' : M S A) (k k' : A -> M S B) st :
  (forall s, m s = m' s) -> (forall a s, k a s = k' a s) ->
  bind m k st = bind m' k' st.
Proof.
  intros Hm Hk. unfold bind. rewrite Hm.
  destruct (m' st) as [[a s1]|]; [apply Hk|reflexivity].
Qed.

Lemma fold_error_last rcs :
  forall result,
    fold_left fold_error rcs result
    = if last_error rcs =? EOK then result else last_error rcs.
Proof.
  induction rcs as [|rc more IH]; intros result; simpl; [reflexivity|].
  rewrite IH. unfold fold_error.
  destruct (last_error more =? EOK) eqn:Hmore; [reflexivity|].
  rewrite Hmore. reflexivity.
Qed.

Lemma append_nil_r s : s ++ EmptyString = s.
Proof. induction s as [|c s IH]; simpl; [|rewrite IH]; reflexivity. Qed.

Lemma append_assoc s t u : (s ++ t) ++ u = s ++ t ++ u.
Proof. induction s as [|c s IH]; simpl; [|rewrite IH]; reflexivity. Qed.

Section Lines.

Context {VS : VarServer}.
Variable fs : FileSystem.
Variable recurse : option string -> M LoadState Z.

Lemma process_segment_run_line line result st :
  process_segment fs recurse line result st
  = (rc <- run_line fs recurse line ;; ret (fold_error result rc)) st.
Proof.
  unfold process_segment, run_line.
  cbv [bind get modify ret when LogError emit fold_error].
  destruct (TEMPLATE_StrToFile (hVarServer st) line) as [rc workbuf].
  destruct (rc =? EOK) eqn:Hrc.
  - destruct (ProcessConfigLine fs recurse workbuf st) as [[rc' s1]|];
      [|reflexivity].
    destruct (rc' =? EOK) eqn:Hrc'; simpl; rewrite Hrc'; reflexivity.
  - rewrite Hrc. reflexivity.
Qed.

Lemma scan_run_lines rest :
  forall line result st,
    scan fs recurse rest line result st
    = (rcs <- run_lines fs recurse (split_lines_from rest line) ;;
       ret (fold_left fold_error rcs result)) st.
Proof.
  assert (Hlast : forall line result st,
    process_segment fs recurse line result st
    = (rcs <- run_lines fs recurse [line] ;;
       ret (fold_left fold_error rcs result)) st).
  { intros line result st. rewrite process_segment_run_line.
    cbn [run_lines]. unfold bind, ret.
    destruct (run_line fs recurse line st) as [[rc s1]|]; reflexivity. }
  induction rest as [|c rest IH]; intros line result st; simpl.
  - apply Hlast.
  - destruct (Ascii.eqb c NUL); [apply Hlast|].
    destruct (Ascii.eqb c LF); [|apply IH].
    etransitivity.
    { apply bind_congr;
        [intros s; apply process_segment_run_line|intros r s; apply IH]. }
    cbn [run_lines]. rewrite !bind_assoc.
    apply bind_ext. intros rc s1. cbv [bind ret].
    destruct (run_lines fs recurse (split_lines_from rest EmptyString) s1)
      as [[rcs s2]|]; reflexivity.
Qed.

Lemma scan_app pre :
  nul_free pre = true ->
  forall rest line result st,
    scan fs recurse (pre ++ String LF rest) line result st
    = (r <- scan fs recurse pre line result ;;
       scan fs recurse rest EmptyString r) st.
Proof.
  induction pre as [|c pre IH]; intros Hfree rest line result st.
  - reflexivity.
  - cbn [nul_free free_of strchr] in Hfree.
    apply andb_true_iff in Hfree as [Hc Hfree].
    cbn [append scan].
    destruct (Ascii.eqb c NUL) eqn:HNUL.
    { rewrite Ascii.eqb_sym in HNUL. rewrite HNUL in Hc. discriminate. }
    destruct (Ascii.eqb c LF).
    + rewrite bind_assoc. apply bind_ext. intros r s. apply IH, Hfree.
    + apply IH, Hfree.
Qed.

Lemma scan_one_line tail :
  one_line tail = true ->
  forall line result st,
    scan fs recurse tail line result st
    = process_segment fs recurse (line ++ tail) result st.
Proof.
  induction tail as [|c tail IH]; intros Hone line result st.
  - rewrite append_nil_r. reflexivity.
  - cbn [one_line free_of strchr] in Hone.
    apply andb_true_iff in Hone as [Hc Hone].
    cbn [scan].
    rewrite (Ascii.eqb_sym c NUL), (Ascii.eqb_sym c LF).
    destruct (Ascii.eqb NUL c); [discriminate|].
    destruct (Ascii.eqb LF c); [discriminate|].
    rewrite (IH Hone), append_assoc. reflexivity.
Qed.

End Lines.

Lemma last_error_EOK rcs : Forall (eq EOK) rcs -> last_error rcs = EOK.
Proof.
  induction 1 as [|rc more <- _ IH]; simpl; [reflexivity|].
  rewrite IH. reflexivity.
Qed.

Lemma last_error_last rcs rc rcs' :
  rc <> EOK -> Forall (eq EOK) rcs' -> last_error (rcs ++ rc :: rcs')%list = rc.
Proof.
  intros Hrc Hok. induction rcs as [|r rcs IH]; simpl.
  - rewrite (last_error_EOK _ Hok). reflexivity.
  - rewrite IH. apply Z.eqb_neq in Hrc. rewrite Hrc. reflexivity.
Qed.

Section Buffers.

Context {VS : VarServer}.
Variable fs : FileSystem.

Lemma run_lines_length recurse lines :
  forall st rcs st',
    run_lines fs recurse lines st = Some (rcs, st') ->
    length rcs = length lines.
Proof.
  induction lines as [|line more IH]; intros st rcs st' Hrun.
  - injection Hrun as <- _. reflexivity.
  - cbn [run_lines] in Hrun.
    apply bind_Some in Hrun as (rc & s1 & _ & Hrun).
    apply bind_Some in Hrun as (rcs' & s2 & Hmore & [= <- _]).
    simpl. rewrite (IH _ _ _ Hmore). reflexivity.
Qed.

(** C2: processing a buffer is processing each of its lines in order, a
    line being expanded and processed whatever the lines before it
    returned; there is one return code per line, and the result of the
    buffer is the code of the last line that failed, [EOK] when none
    did. *)
Theorem every_line_is_processed depth data st :
  ProcessConfigData fs depth data st
  = (rcs <- run_lines fs (ProcessConfigFile fs depth) (split_lines data) ;;
     ret (last_error rcs)) st
  /\ (forall rcs st',
        run_lines fs (ProcessConfigFile fs depth) (split_lines data) st
        = Some (rcs, st') ->
        length rcs = length (split_lines data))
  /\ (forall rcs rc rcs',
        rc <> EOK -> Forall (eq EOK) rcs' ->
        last_error (rcs ++ rc :: rcs')%list = rc)
  /\ (forall rcs, Forall (eq EOK) rcs -> last_error rcs = EOK).
Proof.
  split; [|split; [|split]].
  - unfold ProcessConfigData, ProcessConfigData_body, split_lines.
    rewrite scan_run_lines. apply bind_ext. intros rcs s.
    rewrite fold_error_last.
    destruct (last_error rcs =? EOK) eqn:Hlast; [|reflexivity].
    apply Z.eqb_eq in Hlast. rewrite Hlast. reflexivity.
  - intros rcs st'. apply run_lines_length.
  - apply last_error_last.
  - apply last_error_EOK.
Qed.

(** *** The line counter *)

Lemma process_segment_counts depth line result st rc st' :
  process_segment fs (ProcessConfigFile fs depth) line result st
  = Some (rc, st') ->
  lineno st' = lineno st + 1.
Proof.
  unfold process_segment. intros H.
  apply bind_Some in H as (s0 & s0' & [= <- <-] & H).
  destruct (TEMPLATE_StrToFile (hVarServer st) line) as [rc0 workbuf].
  apply bind_Some in H as (result' & s1 & Hinner & H).
  apply bind_Some in H as (s1' & s1'' & [= <- <-] & H).
  apply bind_Some in H as ([] & s2 & [= <-] & [= _ <-]).
  cbn [lineno set_lineno]. f_equal.
  assert (Hplace : preserves same_place
    (if rc0 =? EOK
     then rc' <- ProcessConfigLine fs (ProcessConfigFile fs depth) workbuf ;;
          (if rc' =? EOK then ret result
           else LogError "Config error" ;; ret rc')
     else LogError "Variable Expansion error" ;; ret rc0)).
  { pose proof (preserves_LogError same_place same_place_refl
                  same_place_trans
                  (fun e s => conj eq_refl eq_refl)) as Hlog.
    destruct (rc0 =? EOK).
    - apply (preserves_bind _ same_place_trans);
        [apply ProcessConfigLine_same_place|intros rc'].
      destruct (rc' =? EOK); [apply (preserves_ret _ same_place_refl)|].
      apply (preserves_bind _ same_place_trans); [apply Hlog|intros _].
      apply (preserves_ret _ same_place_refl).
    - apply (preserves_bind _ same_place_trans); [apply Hlog|intros _].
      apply (preserves_ret _ same_place_refl). }
  exact (proj2 (Hplace _ _ _ Hinner)).
Qed.

Lemma scan_counts depth rest :
  forall line result st rc st',
    scan fs (ProcessConfigFile fs depth) rest line result st = Some (rc, st') ->
    lineno st' = lineno st + Z.of_nat (S (newlines rest)).
Proof.
  induction rest as [|c rest IH]; intros line result st rc st' Hrun;
    cbn [scan newlines] in *.
  - apply process_segment_counts in Hrun. lia.
  - destruct (Ascii.eqb c NUL).
    { apply process_segment_counts in Hrun. lia. }
    destruct (Ascii.eqb c LF); [|exact (IH _ _ _ _ _ Hrun)].
    apply bind_Some in Hrun as (r & s1 & Hseg & Hrun).
    apply process_segment_counts in Hseg. apply IH in Hrun. lia.
Qed.

Lemma split_lines_from_length rest :
  forall line, length (split_lines_from rest line) = S (newlines rest).
Proof.
  induction rest as [|c rest IH]; intros line; simpl; [reflexivity|].
  destruct (Ascii.eqb c NUL); [reflexivity|].
  destruct (Ascii.eqb c LF); simpl; rewrite IH; reflexivity.
Qed.

(** C10: the [NUL] behind the data ends a line as a line feed does.  The
    text behind the last line feed is processed as a line of its own; when
    the buffer ends with a line feed that last line is empty, and with an
    expander that maps the empty line to itself it only advances the line
    counter; every segment, whatever its fate, advances the counter by
    one, so a buffer advances it by its number of line feeds plus one. *)
Theorem terminator_ends_a_line depth :
  (forall pre tail st,
     nul_free pre = true -> one_line tail = true ->
     ProcessConfigData fs depth (pre ++ eol ++ tail) st
     = (r <- ProcessConfigData fs depth pre ;;
        process_segment fs (ProcessConfigFile fs depth) tail r) st) /\
  (forall tail st,
     one_line tail = true ->
     ProcessConfigData fs depth tail st
     = process_segment fs (ProcessConfigFile fs depth) tail EOK st) /\
  ((forall h, TEMPLATE_StrToFile h EmptyString = (EOK, EmptyString)) ->
   forall pre st,
     nul_free pre = true ->
     ProcessConfigData fs depth (pre ++ eol) st
     = (r <- ProcessConfigData fs depth pre ;;
        s <- get ;;
        modify (set_lineno (lineno s + 1)) ;;
        ret r) st) /\
  (forall data st rc st',
     ProcessConfigData fs depth data st = Some (rc, st') ->
     lineno st' = lineno st + Z.of_nat (length (split_lines data)) /\
     length (split_lines data) = S (newlines data)).
Proof.
  unfold ProcessConfigData, ProcessConfigData_body.
  split; [|split; [|split]].
  - intros pre tail st Hpre Htail. unfold eol. cbn [append].
    rewrite (scan_app _ _ _ Hpre). apply bind_ext. intros r s.
    apply (scan_one_line _ _ _ Htail).
  - intros tail st Htail. apply (scan_one_line _ _ _ Htail).
  - intros Hempty pre st Hpre. unfold eol.
    rewrite (scan_app _ _ _ Hpre). apply bind_ext. intros r s.
    cbn [scan]. unfold process_segment. cbv [bind get modify ret].
    rewrite Hempty. reflexivity.
  - intros data st rc st' Hrun. unfold split_lines.
    rewrite split_lines_from_length. split; [|reflexivity].
    exact (scan_counts _ _ _ _ _ _ _ Hrun).
Qed.

End Buffers.

(** ** Assignments *)

Lemma set_calls_app tr tr' :
  set_calls (tr ++ tr') = (set_calls tr ++ set_calls tr')%list.
Proof.
  induction tr as [|e tr IH]; simpl; [reflexivity|].
  destruct e; simpl; rewrite IH; reflexivity.
Qed.

(** A name free of the delimiters, followed by one delimiter: the token is
    the name and the save pointer is left on what follows that one
    character. *)
Lemma strtok_r_split delim name c value :
  name <> EmptyString -> free_of delim name = true ->
  strchr delim c = true ->
  strtok_r (name ++ String c value) delim
  = {| tok_token := Some name; tok_save := Some value; tok_buffer := name |}.
Proof.
  intros Hne Hfree Hc. unfold strtok_r.
  assert (Hlead : strspn (name ++ String c value) delim = O).
  { destruct name as [|d name]; [contradiction|]. simpl in *.
    apply andb_true_iff in Hfree as [Hd _]. apply negb_true_iff in Hd.
    rewrite Hd. reflexivity. }
  rewrite Hlead. cbn [drop Nat.add].
  rewrite (strcspn_free _ _ _ _ Hfree Hc), take_app_exact, drop_app_exact.
  destruct name as [|d name]; [contradiction|]. reflexivity.
Qed.

Section Assignments.

Context {VS : VarServer}.
Variable fs : FileSystem.

(** Once [strtok_r] has answered a token and a save pointer, the store is
    called once with them, and its answer is the result. *)
Lemma assignment_calls_store pConfig pVar pVal st :
  (let ch := if strchr pConfig "=" then "=" else " " in
   tok_token (strtok_r pConfig ch) = Some pVar /\
   tok_save (strtok_r pConfig ch) = Some pVal) ->
  exists st',
    ProcessVariableAssignment pConfig st
    = Some (fst (VAR_SetNameValue (hVarServer st) pVar pVal), st') /\
    set_calls (trace st')
    = (set_calls (trace st) ++ [(pVar, pVal)])%list /\
    hVarServer st' = snd (VAR_SetNameValue (hVarServer st) pVar pVal) /\
    same_place st st'.
Proof.
  cbv zeta. intros [Htok Hsave]. unfold ProcessVariableAssignment.
  rewrite Htok, Hsave.
  cbv [bind say get when emit modify call_VAR_SetNameValue LogError ret].
  destruct st as [h v f n r tr]. cbn [verbose hVarServer].
  destruct v; cbn [hVarServer add_event trace];
    destruct (VAR_SetNameValue h pVar pVal) as [rc h'];
    destruct (rc =? EOK); cbn [negb]; try destruct (rc =? ENOENT);
    eexists; (split; [reflexivity|]);
    cbn [trace set_hVarServer add_event hVarServer pFileName lineno snd];
    rewrite ?set_calls_app; cbn [set_calls];
    rewrite ?app_nil_r, <- ?app_assoc;
    (split; [reflexivity|split; [reflexivity|split; reflexivity]]).
Qed.

(** C5 at a failing input: a name followed by [=] and nothing, and a bare
    name with no delimiter at all, are not rejected; the store is called
    with the empty string as the value and its answer is the result. *)
Theorem empty_value_reaches_store st :
  (exists st',
     ProcessVariableAssignment "/sys/x=" st
     = Some (fst (VAR_SetNameValue (hVarServer st) "/sys/x" EmptyString), st')
     /\ set_calls (trace st')
        = (set_calls (trace st) ++ [("/sys/x", EmptyString)])%list) /\
  (exists st',
     ProcessVariableAssignment "/sys/x" st
     = Some (fst (VAR_SetNameValue (hVarServer st) "/sys/x" EmptyString), st')
     /\ set_calls (trace st')
        = (set_calls (trace st) ++ [("/sys/x", EmptyString)])%list).
Proof.
  split.
  - destruct (assignment_calls_store "/sys/x=" "/sys/x" EmptyString st)
      as (st' & Hrun & Hcalls & _); [split; reflexivity|].
    exists st'. split; assumption.
  - destruct (assignment_calls_store "/sys/x" "/sys/x" EmptyString st)
      as (st' & Hrun & Hcalls & _); [split; reflexivity|].
    exists st'. split; assumption.
Qed.

(** A line made of delimiters only has no name: it is rejected with
    [EINVAL], the store is not called, and the error is logged. *)
Lemma no_token_is_invalid pConfig st :
  tok_token
    (strtok_r pConfig (if strchr pConfig "=" then "=" else " ")) = None ->
  ProcessVariableAssignment pConfig st
  = Some (EINVAL,
          add_event (Log "Invalid Variable Assignment"
                         (pFileName st) (lineno st)) st).
Proof.
  intros Htok. unfold ProcessVariableAssignment. rewrite Htok. reflexivity.
Qed.

Lemma line_assignment recurse name rest :
  starts_assignment name = true ->
  ProcessConfigLine fs recurse (name ++ rest)
  = ProcessVariableAssignment (name ++ rest).
Proof.
  destruct name as [|c name]; [discriminate|]. cbn.
  destruct (Ascii.eqb c "#"); [discriminate|].
  destruct (Ascii.eqb c "@"); [discriminate|]. reflexivity.
Qed.

End Assignments.

(** C6 at a failing input: the header of the source shows assignments
    whose name and value are separated by a run of blanks,
    [/sys/network/hostname  MyHostName].  Only the first blank of the run
    is taken as the delimiter: the store is called with a value that
    starts with the blanks that are left, not with the value as it is
    written. *)
Theorem blank_run_reaches_store {VS : VarServer} fs recurse st :
  (exists st',
     ProcessConfigLine fs recurse "/sys/network/hostname  MyHostName" st
     = Some (fst (VAR_SetNameValue (hVarServer st)
                    "/sys/network/hostname" " MyHostName"), st') /\
     set_calls (trace st')
     = (set_calls (trace st)
        ++ [("/sys/network/hostname", " MyHostName")])%list) /\
  (exists st',
     ProcessConfigLine fs recurse "/sys/x  1" st
     = Some (fst (VAR_SetNameValue (hVarServer st) "/sys/x" " 1"), st') /\
     set_calls (trace st')
     = (set_calls (trace st) ++ [("/sys/x", " 1")])%list).
Proof.
  split.
  - change (ProcessConfigLine fs recurse "/sys/network/hostname  MyHostName")
      with (ProcessVariableAssignment "/sys/network/hostname  MyHostName").
    destruct (assignment_calls_store "/sys/network/hostname  MyHostName"
                "/sys/network/hostname" " MyHostName" st)
      as (st' & Hrun & Hcalls & _); [split; reflexivity|].
    exists st'. split; assumption.
  - change (ProcessConfigLine fs recurse "/sys/x  1")
      with (ProcessVariableAssignment "/sys/x  1").
    destruct (assignment_calls_store "/sys/x  1" "/sys/x" " 1" st)
      as (st' & Hrun & Hcalls & _); [split; reflexivity|].
    exists st'. split; assumption.
Qed.

(** ** Directories *)

Section Directories.

Context {VS : VarServer}.
Variable fs : FileSystem.

(** Every activation of [ProcessConfigFile] starts by announcing the name
    it was given. *)
Lemma ProcessConfigFile_enters depth name st rc st' :
  ProcessConfigFile fs depth (Some name) st = Some (rc, st') ->
  exists tl, trace st' = (trace st ++ Enter name :: tl)%list.
Proof.
  destruct depth as [|d]; [discriminate|].
  cbn [ProcessConfigFile ProcessConfigFile_body]. intros Hrun.
  apply bind_Some in Hrun as ([] & s1 & [= <-] & Hrun).
  assert (Hrest : extends (add_event (Enter name) st) st').
  { refine (preserves_file_rest fs extends extends_refl extends_trans
              _ _ (ProcessConfigFile fs d) _ _ _ name _ _ _ Hrun).
    - intros e s. exists [e]. reflexivity.
    - intros h s. exact (extends_refl s).
    - intros b f s r s' Hcall.
      apply ProcessConfigFile_extends in Hcall. exact Hcall.
    - intros n s. exact (extends_refl s).
    - intros f s. exact (extends_refl s). }
  destruct Hrest as [tl Htl]. exists tl. rewrite Htl.
  cbn [trace add_event]. rewrite <- app_assoc. reflexivity.
Qed.

Lemma readdir_loop_enters depth entries :
  forall st u st',
    readdir_loop (ProcessConfigFile fs depth) entries st = Some (u, st') ->
    exists segments,
      trace st' = (trace st ++ concat segments)%list /\
      Forall2 (fun d_name segment => exists tl, segment = Enter d_name :: tl)
              entries segments.
Proof.
  induction entries as [|d_name more IH]; intros st u st' Hrun;
    cbn [readdir_loop] in Hrun.
  - injection Hrun as _ <-. exists []. split; [|constructor].
    symmetry. apply app_nil_r.
  - apply bind_Some in Hrun as ([] & s1 & [= <-] & Hrun).
    apply bind_Some in Hrun as (rc & s2 & Hcall & Hrun).
    apply ProcessConfigFile_enters in Hcall as [tl Htl].
    apply IH in Hrun as (segments & Htrace & Hall).
    exists ((Enter d_name :: tl) :: segments). split.
    + rewrite Htrace, Htl. cbn [trace set_required concat].
      rewrite <- app_assoc. reflexivity.
    + constructor; [exists tl; reflexivity|exact Hall].
Qed.

Lemma readdir_loop_not_loaded depth entries :
  (forall d_name, In d_name entries -> GetConfigData fs d_name = None) ->
  forall st,
    exists st',
      readdir_loop (ProcessConfigFile fs (S depth)) entries st
      = Some (tt, st') /\
      trace st' = (trace st ++ map Enter entries)%list.
Proof.
  induction entries as [|d_name more IH]; intros Hnone st.
  - exists st. split; [reflexivity|]. symmetry. apply app_nil_r.
  - cbn [readdir_loop].
    rewrite (bind_step _ _ st tt (set_required false st) eq_refl).
    pose proof (ProcessConfigFile_not_loaded fs depth d_name
                  (set_required false st)
                  (Hnone _ (or_introl eq_refl))) as Hcall.
    cbn [required set_required] in Hcall.
    rewrite (bind_step _ _ _ _ _ Hcall).
    destruct (IH (fun e He => Hnone e (or_intror He))
                 (add_event (Enter d_name) (set_required false st)))
      as (st' & Hrun & Htrace).
    exists st'. split; [exact Hrun|].
    rewrite Htrace. cbn [trace add_event set_required map].
    rewrite <- app_assoc. reflexivity.
Qed.

(** The directive answers [EOK] whatever the entries returned, and also
    when the directory cannot be opened. *)
Lemma includedir_result recurse dir st :
  (forall rc st',
     ProcessIncludeDirDirective fs recurse (Some dir) st = Some (rc, st') ->
     rc = EOK) /\
  (opendir fs dir = None ->
   exists st',
     ProcessIncludeDirDirective fs recurse (Some dir) st = Some (EOK, st')).
Proof.
  split.
  - intros rc st' Hrun. unfold ProcessIncludeDirDirective in Hrun.
    apply bind_Some in Hrun as ([] & s1 & _ & Hrun).
    apply bind_Some in Hrun as ([] & s2 & _ & [= <- _]). reflexivity.
  - intros Hdir. unfold ProcessIncludeDirDirective. rewrite Hdir.
    cbv [bind say get when emit modify ret].
    destruct (verbose st); eauto.
Qed.

(** C9: each directory entry is handed to [ProcessConfigFile] as the bare
    [d_name]: the activations announced during the directive are those of
    the entry names, in directory order, and whether an entry is loaded
    is decided by the file of that name alone; when no file of a bare
    entry name can be loaded nothing else happens, whatever the directory
    itself contains. *)
Theorem includedir_hands_over_bare_names depth dir entries st :
  opendir fs dir = Some entries ->
  (forall rc st',
     ProcessIncludeDirDirective fs (ProcessConfigFile fs depth) (Some dir) st
     = Some (rc, st') ->
     exists segments,
       trace st'
       = (trace st
          ++ (if verbose st then [ProcessingDirectory dir] else [])
          ++ concat segments)%list /\
       Forall2 (fun d_name segment => exists tl, segment = Enter d_name :: tl)
               entries segments) /\
  ((forall d_name, In d_name entries -> GetConfigData fs d_name = None) ->
   exists st',
     ProcessIncludeDirDirective fs (ProcessConfigFile fs (S depth))
       (Some dir) st = Some (EOK, st') /\
     trace st'
     = (trace st
        ++ (if verbose st then [ProcessingDirectory dir] else [])
        ++ map Enter entries)%list).
Proof.
  intros Hdir. unfold ProcessIncludeDirDirective. rewrite Hdir. split.
  - intros rc st' Hrun.
    apply bind_Some in Hrun as ([] & s1 & Hsay & Hrun).
    apply bind_Some in Hrun as ([] & s2 & Hloop & [= _ <-]).
    apply readdir_loop_enters in Hloop as (segments & Htrace & Hall).
    exists segments. split; [|exact Hall]. rewrite Htrace.
    cbv [say bind get when emit modify ret] in Hsay.
    destruct (verbose st); injection Hsay as <-; cbn [trace add_event];
      rewrite <- ?app_assoc, ?app_nil_r; reflexivity.
  - intros Hnone.
    destruct (readdir_loop_not_loaded depth entries Hnone
                (if verbose st
                 then add_event (ProcessingDirectory dir) st else st))
      as (st' & Hrun & Htrace).
    exists st'. split.
    + cbv [bind say get when emit modify ret].
      destruct (verbose st); cbv [bind]; rewrite Hrun; reflexivity.
    + rewrite Htrace. destruct (verbose st); cbn [trace add_event app];
        rewrite <- ?app_assoc; reflexivity.
Qed.

End Directories.

(** C8 at a failing input: [conf.d] holds the configuration file [a.cfg],
    which assigns [/sys/a], and a file that is not a configuration.
    [@includedir conf.d] answers [EOK], yet it opens [a.cfg] and not
    [conf.d/a.cfg], finds nothing and calls the store not once. *)
Theorem includedir_misses_the_directory :
  GetConfigData Toy.confd_fs "conf.d/a.cfg"
  = Some ("@config a" ++ eol ++ "/sys/a 1" ++ eol) /\
  GetConfigData Toy.confd_fs "conf.d/notes.txt" = None /\
  exists st',
    ProcessConfigLine Toy.confd_fs (ProcessConfigFile Toy.confd_fs 2)
      "@includedir conf.d" (Toy.initial "main.cfg") = Some (EOK, st') /\
    trace st' = [Enter "."; Enter ".."; Enter "a.cfg"; Enter "notes.txt"] /\
    set_calls (trace st') = [].
Proof.
  split; [vm_compute; reflexivity|]. split; [vm_compute; reflexivity|].
  eexists. split; [vm_compute; reflexivity|]. split; reflexivity.
Qed.

(** ** The bound on the nesting depth

    A run that returns under some bound returns the same result under
    every larger bound: the bound only cuts runs short, it never changes
    them. *)

Section Depth.

Context {VS : VarServer}.
Variable fs : FileSystem.

Lemma approx_refl {A} (m : M LoadState A) : approx m m.
Proof. intros st r H. exact H. Qed.

Lemma approx_bind {A B} (m m' : M LoadState A) (k k' : A -> M LoadState B) :
  approx m m' -> (forall a, approx (k a) (k' a)) ->
  approx (bind m k) (bind m' k').
Proof.
  intros Hm Hk st [b st'] Hrun.
  apply bind_Some in Hrun as (a & s1 & H1 & H2).
  apply bind_Some. exists a, s1. split; [apply Hm, H1|apply Hk, H2].
Qed.

Variables recurse recurse' : option string -> M LoadState Z.
Hypothesis Hrec : forall f, approx (recurse f) (recurse' f).

Lemma approx_readdir_loop entries :
  approx (readdir_loop recurse entries) (readdir_loop recurse' entries).
Proof.
  induction entries as [|d_name more IH]; cbn [readdir_loop];
    [apply approx_refl|].
  apply approx_bind; [apply approx_refl|intros _].
  apply approx_bind; [apply Hrec|intros _; exact IH].
Qed.

Lemma approx_ProcessConfigLine line :
  approx (ProcessConfigLine fs recurse line)
         (ProcessConfigLine fs recurse' line).
Proof.
  destruct line as [|c line]; cbn [ProcessConfigLine]; [apply approx_refl|].
  destruct (Ascii.eqb c "#"); [apply approx_refl|].
  destruct (Ascii.eqb c "@"); [|apply approx_refl].
  unfold ProcessDirective.
  destruct (String.eqb _ "@config"); [apply approx_refl|].
  destruct (String.eqb _ "@include").
  { destruct (tok_save _) as [f|]; cbn [ProcessIncludeDirective];
      [|apply approx_refl].
    apply approx_bind; [apply approx_refl|intros _].
    apply approx_bind; [apply approx_refl|intros _; apply Hrec]. }
  destruct (String.eqb _ "@require").
  { destruct (tok_save _) as [f|]; cbn [ProcessRequireDirective];
      [|apply approx_refl].
    apply approx_bind; [apply approx_refl|intros _].
    apply approx_bind; [apply approx_refl|intros _; apply Hrec]. }
  destruct (String.eqb _ "@includedir"); [|apply approx_refl].
  destruct (tok_save _) as [d|]; cbn [ProcessIncludeDirDirective];
    [|apply approx_refl].
  apply approx_bind; [apply approx_refl|intros _].
  apply approx_bind; [|intros _; apply approx_refl].
  destruct (opendir fs d); [apply approx_readdir_loop|apply approx_refl].
Qed.

Lemma approx_process_segment line result :
  approx (process_segment fs recurse line result)
         (process_segment fs recurse' line result).
Proof.
  unfold process_segment.
  apply approx_bind; [apply approx_refl|intros st].
  destruct (TEMPLATE_StrToFile _ _) as [rc workbuf].
  apply approx_bind; [|intros r; apply approx_refl].
  destruct (rc =? EOK); [|apply approx_refl].
  apply approx_bind; [apply approx_ProcessConfigLine|intros r].
  apply approx_refl.
Qed.

Lemma approx_scan rest :
  forall line result,
    approx (scan fs recurse rest line result)
           (scan fs recurse' rest line result).
Proof.
  induction rest as [|c rest IH]; intros line result; cbn [scan].
  - apply approx_process_segment.
  - destruct (Ascii.eqb c NUL); [apply approx_process_segment|].
    destruct (Ascii.eqb c LF); [|apply IH].
    apply approx_bind; [apply approx_process_segment|intros r; apply IH].
Qed.

Lemma approx_ProcessConfigFile_body filename :
  approx (ProcessConfigFile_body fs recurse filename)
         (ProcessConfigFile_body fs recurse' filename).
Proof.
  destruct filename as [name|]; cbn [ProcessConfigFile_body];
    [|apply approx_refl].
  apply approx_bind; [apply approx_refl|intros _].
  apply approx_bind; [apply approx_refl|intros st].
  apply approx_bind; [apply approx_refl|intros _].
  apply approx_bind; [apply approx_refl|intros _].
  apply approx_bind; [|intros r; apply approx_refl].
  destruct (GetConfigData fs name); [apply approx_scan|apply approx_refl].
Qed.

End Depth.

Lemma ProcessConfigFile_depth_mono {VS : VarServer} fs depth :
  forall depth' filename,
    (depth <= depth')%nat ->
    approx (ProcessConfigFile fs depth filename)
           (ProcessConfigFile fs depth' filename).
Proof.
  induction depth as [|d IH]; intros depth' filename Hle.
  - intros st r. discriminate.
  - destruct depth' as [|d']; [lia|]. cbn [ProcessConfigFile].
    apply approx_ProcessConfigFile_body.
    intros f. apply IH. lia.
Qed.

(** * The loader at work *)

(** A root file with an unknown directive, an included file with two bad
    lines, a line that does not expand and two assignments: every line is
    reached, each message carries the file and the line it belongs to,
    and the result is the error of the last failing line. *)
Example nested_run :
  exists st',
    ProcessConfigFile Toy.nested_fs 2 (Some "main.cfg")
      (Toy.initial "main.cfg") = Some (ENOENT, st') /\
    trace st'
    = [ Enter "main.cfg";
        Log "unknown directive" (Some "main.cfg") 2;
        Log "Config error" (Some "main.cfg") 2;
        Enter "sub.cfg";
        SetCall "novalue" EmptyString;
        Log "Variable not found" (Some "sub.cfg") 2;
        Log "Config error" (Some "sub.cfg") 2;
        Log "Invalid Variable Assignment" (Some "sub.cfg") 3;
        Log "Config error" (Some "sub.cfg") 3;
        Failed "sub.cfg";
        Log "Config error" (Some "main.cfg") 3;
        Log "Variable Expansion error" (Some "main.cfg") 4;
        SetCall "/sys/x" "1";
        SetCall "/sys/y" "2";
        Failed "main.cfg" ] /\
    hVarServer st' = [("/sys/y", "2"); ("/sys/x", "1")].
Proof.
  eexists. split; [vm_compute; reflexivity|]. split; reflexivity.
Qed.

Lemma missing_target_result_witness :
  let st := Toy.initial "main.cfg" in
  not_a_config_file Toy.empty_fs "missing.cfg" /\
  ProcessConfigFile Toy.empty_fs 1 (Some "missing.cfg") st
  = Some (EINVAL,
          add_event (Failed "missing.cfg")
            (add_event (Enter "missing.cfg") st)) /\
  ProcessConfigFile Toy.empty_fs 1 (Some "missing.cfg")
    (set_required false st)
  = Some (EOK, add_event (Enter "missing.cfg") (set_required false st)) /\
  (exists st',
     ProcessConfigLine Toy.empty_fs (ProcessConfigFile Toy.empty_fs 1)
       ("@include " ++ "missing.cfg") st = Some (EOK, st')) /\
  (exists st',
     process_segment Toy.empty_fs (ProcessConfigFile Toy.empty_fs 1)
       "@require missing.cfg" EOK st = Some (EINVAL, st')).
Proof.
  cbv zeta.
  assert (Hmiss : not_a_config_file Toy.empty_fs "missing.cfg")
    by (left; reflexivity).
  split; [exact Hmiss|]. split; [|split; [|split]].
  - exact (proj1 (proj2 (missing_target_result Toy.empty_fs 0 "missing.cfg"
                           (Toy.initial "main.cfg") Hmiss)) eq_refl).
  - exact (proj1 (missing_target_result Toy.empty_fs 0 "missing.cfg"
                    (set_required false (Toy.initial "main.cfg")) Hmiss)
             eq_refl).
  - exact (proj1 (proj2 (proj2 (missing_target_result Toy.empty_fs 0
                                  "missing.cfg" (Toy.initial "main.cfg")
                                  Hmiss)))).
  - exact (proj2 (proj2 (proj2 (proj2
             (missing_target_result Toy.empty_fs 0 "missing.cfg"
                (Toy.initial "main.cfg") Hmiss))))
             "@require missing.cfg" EOK eq_refl).
Defined.

Lemma every_line_is_processed_witness :
  let data := "@bogus" ++ eol ++ "/sys/x 1" in
  (exists rcs st',
     run_lines Toy.empty_fs (ProcessConfigFile Toy.empty_fs 1)
       (split_lines data) (Toy.initial "main.cfg") = Some (rcs, st') /\
     length rcs = length (split_lines data)) /\
  last_error ([ENOTSUP] ++ EINVAL :: [EOK]) = EINVAL /\
  last_error [EOK; EOK] = EOK.
Proof.
  cbv zeta.
  pose proof (every_line_is_processed Toy.empty_fs 1
                ("@bogus" ++ eol ++ "/sys/x 1") (Toy.initial "main.cfg"))
    as (_ & Hlength & Hlast & Hnone).
  split; [|split].
  - destruct (run_lines Toy.empty_fs (ProcessConfigFile Toy.empty_fs 1)
                (split_lines ("@bogus" ++ eol ++ "/sys/x 1"))
                (Toy.initial "main.cfg")) as [[rcs st']|] eqn:Hrun.
    + exists rcs, st'. split; [reflexivity|]. exact (Hlength _ _ eq_refl).
    + vm_compute in Hrun. discriminate Hrun.
  - apply Hlast; [discriminate|repeat constructor].
  - apply Hnone. repeat constructor.
Defined.

Lemma nested_file_place_witness :
  let st := Toy.initial "main.cfg" in
  let data := "@config sub" ++ eol ++ "novalue" ++ eol ++ "=" in
  GetConfigData Toy.nested_fs "sub.cfg" = Some data /\
  ProcessConfigFile Toy.nested_fs 1 (Some "sub.cfg") st
  = match ProcessConfigData Toy.nested_fs 0 data
            (set_pFileName (Some "sub.cfg")
               (set_lineno 1 (add_event (Enter "sub.cfg") st))) with
    | Some (rc, st1) =>
        let back :=
          set_lineno (lineno st) (set_pFileName (pFileName st) st1) in
        Some (rc, if rc =? EOK then back
                  else add_event (Failed "sub.cfg") back)
    | None => None
    end /\
  match ProcessConfigFile Toy.nested_fs 2 (Some "main.cfg") st with
  | Some (rc, st') => pFileName st' = Some "main.cfg" /\ lineno st' = 0
  | None => False
  end.
Proof.
  cbv zeta.
  assert (Hget : GetConfigData Toy.nested_fs "sub.cfg"
                 = Some ("@config sub" ++ eol ++ "novalue" ++ eol ++ "="))
    by (vm_compute; reflexivity).
  split; [exact Hget|]. split.
  - exact (proj1 (proj2 (nested_file_place Toy.nested_fs 0 "sub.cfg"
                           (Toy.initial "main.cfg"))) _ Hget).
  - destruct (ProcessConfigFile Toy.nested_fs 2 (Some "main.cfg")
                (Toy.initial "main.cfg")) as [[rc st']|] eqn:Hrun.
    + exact (proj2 (proj2 (nested_file_place Toy.nested_fs 2 "main.cfg"
                             (Toy.initial "main.cfg"))) _ _ _ Hrun).
    + vm_compute in Hrun. discriminate Hrun.
Defined.

Lemma directive_recursion_frame_witness :
  let st := Toy.initial "main.cfg" in
  match ProcessConfigLine Toy.nested_fs (ProcessConfigFile Toy.nested_fs 1)
          "@include sub.cfg" st with
  | Some (rc, st') => pFileName st' = pFileName st /\ lineno st' = lineno st
  | None => False
  end /\
  (ProcessIncludeDirective (ProcessConfigFile Toy.empty_fs 1)
     (Some "missing.cfg") st
   = Some (EOK, add_event (Enter "missing.cfg") (set_required false st)) /\
   required st = true /\
   required (add_event (Enter "missing.cfg") (set_required false st))
   = false) /\
  (ProcessRequireDirective (ProcessConfigFile Toy.empty_fs 1)
     (Some "missing.cfg") (set_required false st)
   = Some (EINVAL,
           add_event (Failed "missing.cfg")
             (add_event (Enter "missing.cfg") st)) /\
   required (add_event (Failed "missing.cfg")
               (add_event (Enter "missing.cfg") st)) = true) /\
  match ProcessIncludeDirDirective Toy.confd_fs
          (ProcessConfigFile Toy.confd_fs 1) (Some "conf.d") st with
  | Some (rc, st') => required st' = false
  | None => False
  end.
Proof.
  cbv zeta. split; [|split; [|split]].
  - destruct (ProcessConfigLine Toy.nested_fs
                (ProcessConfigFile Toy.nested_fs 1) "@include sub.cfg"
                (Toy.initial "main.cfg")) as [[rc st']|] eqn:Hrun.
    + exact (proj1 (directive_recursion_frame Toy.nested_fs) _ _ _ _ _ Hrun).
    + vm_compute in Hrun. discriminate Hrun.
  - split; [reflexivity|]. split; [reflexivity|].
    exact (proj1 (proj2 (directive_recursion_frame Toy.empty_fs))
             "missing.cfg" (Toy.initial "main.cfg") EOK _ eq_refl).
  - split; [reflexivity|].
    exact (proj1 (proj2 (proj2 (directive_recursion_frame Toy.empty_fs)))
             "missing.cfg" (set_required false (Toy.initial "main.cfg"))
             EINVAL _ eq_refl).
  - destruct (ProcessIncludeDirDirective Toy.confd_fs
                (ProcessConfigFile Toy.confd_fs 1) (Some "conf.d")
                (Toy.initial "main.cfg")) as [[rc st']|] eqn:Hrun.
    + refine (proj2 (proj2 (proj2 (directive_recursion_frame Toy.confd_fs)))
                "conf.d" ["."; ".."; "a.cfg"; "notes.txt"] _ _ _
                eq_refl _ Hrun).
      discriminate.
    + vm_compute in Hrun. discriminate Hrun.
Defined.

Lemma GetConfigData_tag_check_witness :
  let short := Toy.mkfs [("short.cfg", "@conf")] [] in
  ((GetFileSize short "short.cfg" < taglen)%nat /\
   GetConfigData short "short.cfg" = None) /\
  (fopen Toy.confd_fs "conf.d/notes.txt"
   = Some ("not a c" ++ "onfiguration") /\
   "not a c" <> CONFIG_TAG /\
   GetConfigData Toy.confd_fs "conf.d/notes.txt" = None).
Proof.
  cbv zeta. split.
  - assert (Hshort : (GetFileSize (Toy.mkfs [("short.cfg", "@conf")] [])
                        "short.cfg" < taglen)%nat)
      by (vm_compute; lia).
    split; [exact Hshort|].
    exact (proj1 (GetConfigData_tag_check _ "short.cfg") Hshort).
  - split; [reflexivity|]. split; [discriminate|].
    apply (proj1 (proj2 (GetConfigData_tag_check Toy.confd_fs
                           "conf.d/notes.txt"))
             "not a c" "onfiguration").
    + reflexivity.
    + reflexivity.
    + discriminate.
Defined.

Lemma includedir_hands_over_bare_names_witness :
  let st := Toy.initial "main.cfg" in
  let entries := ["."; ".."; "a.cfg"; "notes.txt"] in
  opendir Toy.confd_fs "conf.d" = Some entries /\
  match ProcessIncludeDirDirective Toy.confd_fs
          (ProcessConfigFile Toy.confd_fs 2) (Some "conf.d") st with
  | Some (rc, st') =>
      exists segments,
        trace st' = (trace st ++ [] ++ concat segments)%list /\
        Forall2 (fun d_name segment =>
                   exists tl, segment = Enter d_name :: tl)
                entries segments
  | None => False
  end /\
  (exists st',
     ProcessIncludeDirDirective Toy.confd_fs
       (ProcessConfigFile Toy.confd_fs 1) (Some "conf.d") st
     = Some (EOK, st') /\
     trace st' = [Enter "."; Enter ".."; Enter "a.cfg"; Enter "notes.txt"]).
Proof.
  cbv zeta.
  pose proof (@includedir_hands_over_bare_names Toy.server Toy.confd_fs)
    as Hthm.
  split; [reflexivity|]. split.
  - destruct (ProcessIncludeDirDirective Toy.confd_fs
                (ProcessConfigFile Toy.confd_fs 2) (Some "conf.d")
                (Toy.initial "main.cfg")) as [[rc st']|] eqn:Hrun.
    + exact (proj1 (Hthm 2%nat "conf.d" _ (Toy.initial "main.cfg") eq_refl)
               _ _ Hrun).
    + vm_compute in Hrun. discriminate Hrun.
  - apply (proj2 (Hthm 0%nat "conf.d" _ (Toy.initial "main.cfg") eq_refl)).
    intros d_name [<-|[<-|[<-|[<-|[]]]]]; reflexivity.
Defined.

Lemma terminator_ends_a_line_witness :
  let st := Toy.initial "main.cfg" in
  let recurse := ProcessConfigFile Toy.empty_fs 1 in
  ProcessConfigData Toy.empty_fs 1 ("@config a" ++ eol ++ "/sys/x 1") st
  = (r <- ProcessConfigData Toy.empty_fs 1 "@config a" ;;
     process_segment Toy.empty_fs recurse "/sys/x 1" r) st /\
  ProcessConfigData Toy.empty_fs 1 "/sys/x 1" st
  = process_segment Toy.empty_fs recurse "/sys/x 1" EOK st /\
  ProcessConfigData Toy.empty_fs 1 ("/sys/x 1" ++ eol) st
  = (r <- ProcessConfigData Toy.empty_fs 1 "/sys/x 1" ;;
     s <- get ;;
     modify (set_lineno (lineno s + 1)) ;;
     ret r) st /\
  match ProcessConfigData Toy.empty_fs 1
          ("@bogus" ++ eol ++ "# note" ++ eol ++ "${x}" ++ eol) st with
  | Some (rc, st') => lineno st' = lineno st + 4
  | None => False
  end.
Proof.
  cbv zeta.
  pose proof (@terminator_ends_a_line Toy.server Toy.empty_fs 1)
    as (Htail & Hone & Hblank & Hcount).
  split; [|split; [|split]].
  - apply Htail; reflexivity.
  - apply Hone; reflexivity.
  - apply Hblank; [intros h; reflexivity|reflexivity].
  - destruct (ProcessConfigData Toy.empty_fs 1
                ("@bogus" ++ eol ++ "# note" ++ eol ++ "${x}" ++ eol)
                (Toy.initial "main.cfg")) as [[rc st']|] eqn:Hrun.
    + exact (proj1 (Hcount _ _ _ _ Hrun)).
    + vm_compute in Hrun. discriminate Hrun.
Defined.

(** * Further properties of the loader *)

(** ** [@include] and [@require] of a file that loads *)

Section Agreement.

Context {VS : VarServer}.
Variable fs : FileSystem.

Lemma same_but_required_refl (s : LoadState) : same_but_required s s.
Proof. reflexivity. Qed.

Lemma same_but_required_fields (s1 s2 : LoadState) :
  same_but_required s1 s2 ->
  hVarServer s1 = hVarServer s2 /\ verbose s1 = verbose s2 /\
  pFileName s1 = pFileName s2 /\ lineno s1 = lineno s2 /\
  trace s1 = trace s2.
Proof.
  unfold same_but_required. intros H.
  pose proof (f_equal hVarServer H) as H1.
  pose proof (f_equal verbose H) as H2.
  pose proof (f_equal pFileName H) as H3.
  pose proof (f_equal lineno H) as H4.
  pose proof (f_equal trace H) as H5.
  simpl in *. auto.
Qed.

Lemma same_but_required_set b (s1 s2 : LoadState) :
  same_but_required s1 s2 -> set_required b s1 = set_required b s2.
Proof.
  unfold same_but_required. intros H.
  change (set_required b s1) with (set_required b (set_required true s1)).
  rewrite H. reflexivity.
Qed.

Lemma same_but_required_map (f : LoadState -> LoadState) s1 s2 :
  (forall s, set_required true (f s) = f (set_required true s)) ->
  same_but_required s1 s2 -> same_but_required (f s1) (f s2).
Proof.
  unfold same_but_required. intros Hf H. rewrite !Hf, H. reflexivity.
Qed.

Lemma agree_refl {A} (r : option (A * LoadState)) : agree r r.
Proof. destruct r as [[a s]|]; simpl; auto using same_but_required_refl. Qed.

Lemma respects_ret {A} (a : A) : respects (ret a).
Proof. intros s1 s2 H. simpl. auto. Qed.

Lemma respects_bind {A B} (m : M LoadState A) (k : A -> M LoadState B) :
  respects m -> (forall a, respects (k a)) -> respects (bind m k).
Proof.
  intros Hm Hk s1 s2 H. specialize (Hm s1 s2 H). unfold bind.
  destruct (m s1) as [[a1 t1]|], (m s2) as [[a2 t2]|]; simpl in Hm;
    try contradiction; [|exact I].
  destruct Hm as [<- Ht]. apply Hk, Ht.
Qed.

(** A computation may look at the state as long as what it does with it
    does not depend on the required flag. *)
Lemma respects_get_bind {B} (k : LoadState -> M LoadState B) :
  (forall s1 s2, same_but_required s1 s2 -> agree (k s1 s1) (k s2 s2)) ->
  respects (bind get k).
Proof. intros Hk s1 s2 H. exact (Hk s1 s2 H). Qed.

Lemma respects_modify (f : LoadState -> LoadState) :
  (forall s, set_required true (f s) = f (set_required true s)) ->
  respects (modify f).
Proof.
  intros Hf s1 s2 H. simpl. split; [reflexivity|].
  apply same_but_required_map; assumption.
Qed.

Lemma respects_emit e : respects (emit e).
Proof. apply respects_modify. reflexivity. Qed.

Lemma respects_when b m : respects m -> respects (when b m).
Proof. destruct b; simpl; [auto|intros _; apply respects_ret]. Qed.

Lemma respects_say e : respects (say e).
Proof.
  apply respects_get_bind. intros s1 s2 H.
  destruct (same_but_required_fields _ _ H) as (_ & -> & _).
  apply respects_when; [apply respects_emit|exact H].
Qed.

Lemma respects_LogError msg : respects (LogError msg).
Proof.
  apply respects_get_bind. intros s1 s2 H.
  destruct (same_but_required_fields _ _ H) as (_ & _ & -> & -> & _).
  apply respects_emit, H.
Qed.

Lemma respects_set name value : respects (call_VAR_SetNameValue name value).
Proof.
  intros s1 s2 H. unfold call_VAR_SetNameValue.
  destruct (same_but_required_fields _ _ H) as (-> & _).
  destruct (VAR_SetNameValue (hVarServer s2) name value) as [rc h].
  simpl. split; [reflexivity|].
  apply (same_but_required_map
           (fun s => set_hVarServer h (add_event (SetCall name value) s)));
    [reflexivity|exact H].
Qed.

(** Writing the flag makes the two runs one. *)
Lemma respects_after_write {A} b (k : M LoadState A) :
  respects (modify (set_required b) ;; k).
Proof.
  intros s1 s2 H. unfold bind, modify.
  rewrite (same_but_required_set b _ _ H). apply agree_refl.
Qed.

Lemma respects_ProcessVariableAssignment line :
  respects (ProcessVariableAssignment line).
Proof.
  unfold ProcessVariableAssignment.
  destruct (tok_token _) as [pVar|]; [destruct (tok_save _) as [pVal|]|].
  - apply respects_bind; [apply respects_say|intros _].
    apply respects_bind; [apply respects_set|intros rc].
    apply respects_bind; [|intros _; apply respects_ret].
    apply respects_when. destruct (rc =? ENOENT); apply respects_LogError.
  - apply respects_bind; [apply respects_LogError|intros _; apply respects_ret].
  - apply respects_bind; [apply respects_LogError|intros _; apply respects_ret].
Qed.

Variable recurse : option string -> M LoadState Z.

Lemma respects_ProcessConfigLine line :
  respects (ProcessConfigLine fs recurse line).
Proof.
  destruct line as [|c line]; cbn [ProcessConfigLine]; [apply respects_ret|].
  destruct (Ascii.eqb c "#"); [apply respects_ret|].
  destruct (Ascii.eqb c "@"); [|apply respects_ProcessVariableAssignment].
  unfold ProcessDirective.
  destruct (String.eqb _ "@config").
  { destruct (tok_save _) as [info|]; cbn [ProcessConfigDirective];
      [|apply respects_ret].
    apply respects_bind; [apply respects_say|intros _; apply respects_ret]. }
  destruct (String.eqb _ "@include").
  { destruct (tok_save _) as [f|]; cbn [ProcessIncludeDirective];
      [apply respects_after_write|apply respects_ret]. }
  destruct (String.eqb _ "@require").
  { destruct (tok_save _) as [f|]; cbn [ProcessRequireDirective];
      [apply respects_after_write|apply respects_ret]. }
  destruct (String.eqb _ "@includedir").
  { destruct (tok_save _) as [d|]; cbn [ProcessIncludeDirDirective];
      [|apply respects_ret].
    apply respects_bind; [apply respects_say|intros _].
    apply respects_bind; [|intros _; apply respects_ret].
    destruct (opendir fs d) as [[|d_name more]|]; cbn [readdir_loop];
      [apply respects_ret|apply respects_after_write|apply respects_ret]. }
  apply respects_bind; [apply respects_LogError|intros _; apply respects_ret].
Qed.

Lemma respects_process_segment line result :
  respects (process_segment fs recurse line result).
Proof.
  unfold process_segment. apply respects_get_bind. intros s1 s2 H.
  destruct (same_but_required_fields _ _ H) as (-> & _).
  destruct (TEMPLATE_StrToFile (hVarServer s2) line) as [rc workbuf].
  revert s1 s2 H. apply respects_bind.
  - destruct (rc =? EOK).
    + apply respects_bind; [apply respects_ProcessConfigLine|intros rc'].
      destruct (rc' =? EOK); [apply respects_ret|].
      apply respects_bind;
        [apply respects_LogError|intros _; apply respects_ret].
    + apply respects_bind;
        [apply respects_LogError|intros _; apply respects_ret].
  - intros result'. apply respects_get_bind. intros s1 s2 H.
    destruct (same_but_required_fields _ _ H) as (_ & _ & _ & -> & _).
    generalize (lineno s2). intros n. revert s1 s2 H.
    apply respects_bind; [|intros _; apply respects_ret].
    apply respects_modify. reflexivity.
Qed.

Lemma respects_scan rest :
  forall line result, respects (scan fs recurse rest line result).
Proof.
  induction rest as [|c rest IH]; intros line result; cbn [scan].
  - apply respects_process_segment.
  - destruct (Ascii.eqb c NUL); [apply respects_process_segment|].
    destruct (Ascii.eqb c LF); [|apply IH].
    apply respects_bind; [apply respects_process_segment|intros r; apply IH].
Qed.

Lemma respects_loadable name data :
  GetConfigData fs name = Some data ->
  respects (ProcessConfigFile_body fs recurse (Some name)).
Proof.
  intros Hget. cbn [ProcessConfigFile_body]. rewrite Hget.
  apply respects_bind; [apply respects_emit|intros _].
  apply respects_get_bind. intros s1 s2 H.
  destruct (same_but_required_fields _ _ H) as (_ & _ & -> & -> & _).
  generalize (pFileName s2) (lineno s2). intros f n. revert s1 s2 H.
  apply respects_bind; [apply respects_modify; reflexivity|intros _].
  apply respects_bind; [apply respects_modify; reflexivity|intros _].
  apply respects_bind; [apply respects_scan|intros result].
  apply respects_bind; [apply respects_modify; reflexivity|intros _].
  apply respects_bind; [apply respects_modify; reflexivity|intros _].
  apply respects_bind; [|intros _; apply respects_ret].
  apply respects_when, respects_emit.
Qed.

End Agreement.

(** X1: for a target that loads, [@require] and [@include] do the same:
    either both exceed the nesting bound, or both return the same code and
    leave states that differ at most in the required flag, with the same
    store, the same trace of calls and messages, the same place.  The
    result of [ProcessConfigFile] on such a target does not depend on the
    required flag at all. *)
Theorem include_and_require_agree {VS : VarServer} fs depth name data st :
  GetConfigData fs name = Some data ->
  agree (ProcessConfigLine fs (ProcessConfigFile fs depth)
           ("@include " ++ name) st)
        (ProcessConfigLine fs (ProcessConfigFile fs depth)
           ("@require " ++ name) st) /\
  (forall b,
     agree (ProcessConfigFile fs depth (Some name) st)
           (ProcessConfigFile fs depth (Some name) (set_required b st))).
Proof.
  intros Hget.
  assert (Hfile : forall s1 s2, same_but_required s1 s2 ->
            agree (ProcessConfigFile fs depth (Some name) s1)
                  (ProcessConfigFile fs depth (Some name) s2)).
  { destruct depth as [|d]; [intros s1 s2 _; exact I|].
    cbn [ProcessConfigFile]. exact (respects_loadable fs _ name data Hget). }
  split.
  - rewrite line_include, line_require.
    unfold ProcessIncludeDirective, ProcessRequireDirective.
    cbv [bind modify].
    assert (Hsay : agree (say (Including name) (set_required false st))
                         (say (Including name) (set_required true st)))
      by (apply respects_say; reflexivity).
    destruct (say (Including name) (set_required false st)) as [[[] t1]|],
             (say (Including name) (set_required true st)) as [[[] t2]|];
      simpl in Hsay; try contradiction; [|exact I].
    apply Hfile, Hsay.
  - intros b. apply Hfile. reflexivity.
Qed.

(** ** Directive names *)

Section DirectiveNames.

Context {VS : VarServer}.
Variable fs : FileSystem.

Lemma unknown_directive_line recurse line st :
  known_directive (directive_of line) = false ->
  ProcessDirective fs recurse line st
  = Some (ENOTSUP,
          add_event (Log "unknown directive" (pFileName st) (lineno st)) st).
Proof.
  unfold known_directive, directive_of, ProcessDirective. intros Hunknown.
  apply orb_false_iff in Hunknown as [Hunknown Hdir].
  apply orb_false_iff in Hunknown as [Hunknown Hreq].
  apply orb_false_iff in Hunknown as [Hcfg Hinc].
  rewrite Hcfg, Hinc, Hreq, Hdir. reflexivity.
Qed.

(** The tag followed by anything but a blank is one word, and not the
    name of a directive. *)
Lemma tag_glued_is_unknown word :
  word <> EmptyString -> free_of " " word = true ->
  known_directive (directive_of (CONFIG_TAG ++ word)) = false.
Proof.
  intros Hne Hfree. unfold directive_of, strtok_r.
  cbn [CONFIG_TAG append strspn strchr Ascii.eqb Bool.eqb drop].
  assert (Hwhole : forall s, free_of " " s = true ->
            strcspn s " " = String.length s).
  { induction s as [|c s IH]; cbn [strcspn free_of String.length];
      [reflexivity|].
    intros H. apply andb_true_iff in H as [Hc Hs].
    apply negb_true_iff in Hc. rewrite Hc, (IH Hs). reflexivity. }
  assert (Hdrop : forall s, drop (String.length s) s = EmptyString).
  { induction s as [|c s IH]; [reflexivity|exact IH]. }
  change (String "@" (String "c" (String "o" (String "n" (String "f"
           (String "i" (String "g" word)))))))
    with ("@config" ++ word).
  rewrite (Hwhole ("@config" ++ word)); [|exact Hfree].
  rewrite Hdrop. cbn [tok_buffer].
  destruct word as [|c word]; [contradiction|]. reflexivity.
Qed.

End DirectiveNames.

(** X2: a directive line is recognised by the exact word before its first
    blank: any other word gives [ENOTSUP] and one message at the current
    place, without touching the store and without entering any file.  The
    tag check of a file is weaker: it only compares the first seven
    bytes, so a one-line file that starts with [@config] glued to more
    text is loaded and then fails on its first line. *)
Theorem unknown_directive_is_rejected {VS : VarServer} fs :
  (forall recurse line st,
     known_directive (directive_of (String "@" line)) = false ->
     ProcessConfigLine fs recurse (String "@" line) st
     = Some (ENOTSUP,
             add_event (Log "unknown directive" (pFileName st) (lineno st))
                       st)) /\
  (forall depth name word st,
     word <> EmptyString -> free_of " " word = true ->
     one_line word = true ->
     lstat fs name = Some (String.length (CONFIG_TAG ++ word)) ->
     fopen fs name = Some (CONFIG_TAG ++ word) ->
     TEMPLATE_StrToFile (hVarServer st) (CONFIG_TAG ++ word)
     = (EOK, CONFIG_TAG ++ word) ->
     GetConfigData fs name = Some (CONFIG_TAG ++ word) /\
     exists st',
       ProcessConfigFile fs (S depth) (Some name) st = Some (ENOTSUP, st') /\
       trace st'
       = (trace st
          ++ [Enter name; Log "unknown directive" (Some name) 1;
              Log "Config error" (Some name) 1; Failed name])%list).
Proof.
  split.
  - intros recurse line st Hunknown. cbn [ProcessConfigLine].
    change (Ascii.eqb "@" "#") with false.
    change (Ascii.eqb "@" "@") with true. cbv iota.
    apply unknown_directive_line, Hunknown.
  - intros depth name word st Hne Hfree Hone Hstat Hopen Hexp.
    assert (Hget : GetConfigData fs name = Some (CONFIG_TAG ++ word)).
    { apply GetConfigData_Some. unfold GetFileSize. rewrite Hstat.
      split; [cbn; lia|].
      exists (CONFIG_TAG ++ word). split; [exact Hopen|].
      split; [reflexivity|].
      symmetry. rewrite <- (append_nil_r (CONFIG_TAG ++ word)) at 2.
      apply take_app_exact. }
    split; [exact Hget|].
    pose proof (tag_glued_is_unknown word Hne Hfree) as Hunknown.
    cbn [ProcessConfigFile ProcessConfigFile_body]. rewrite Hget.
    set (entered := set_pFileName (Some name)
                      (set_lineno 1 (add_event (Enter name) st))).
    assert (Hseg :
      ProcessConfigData_body fs (ProcessConfigFile fs depth)
        (CONFIG_TAG ++ word) entered
      = Some (ENOTSUP,
              set_lineno 2
                (add_event (Log "Config error" (Some name) 1)
                   (add_event (Log "unknown directive" (Some name) 1)
                      entered)))).
    { unfold ProcessConfigData_body.
      rewrite (scan_one_line fs _ (CONFIG_TAG ++ word)); [|exact Hone].
      cbn [append]. unfold process_segment.
      rewrite (bind_step _ _ entered entered entered eq_refl).
      change (hVarServer entered) with (hVarServer st).
      change (String "@" (String "c" (String "o" (String "n" (String "f"
               (String "i" (String "g" word)))))))
        with (CONFIG_TAG ++ word).
      rewrite Hexp. change (EOK =? EOK) with true. cbv iota.
      change (ProcessConfigLine fs (ProcessConfigFile fs depth)
                (CONFIG_TAG ++ word))
        with (ProcessDirective fs (ProcessConfigFile fs depth)
                (CONFIG_TAG ++ word)).
      cbv [bind]. rewrite (unknown_directive_line fs _ _ _ Hunknown).
      reflexivity. }
    cbv [bind emit modify get ret when].
    fold entered. rewrite Hseg. cbn.
    eexists. split; [reflexivity|]. subst entered.
    cbn [trace add_event set_lineno set_pFileName].
    rewrite <- !app_assoc. reflexivity.
Qed.

(** ** Lines of delimiters, and lines that are indented *)

Lemma strspn_only delim s :
  only_of delim s = true -> strspn s delim = String.length s.
Proof.
  induction s as [|c s IH]; cbn [only_of strspn String.length];
    [reflexivity|].
  intros H. apply andb_true_iff in H as [Hc Hs].
  rewrite Hc, (IH Hs). reflexivity.
Qed.

Lemma strspn_lead delim lead name rest :
  only_of delim lead = true -> name <> EmptyString ->
  free_of delim name = true ->
  strspn (lead ++ name ++ rest) delim = String.length lead.
Proof.
  intros Hlead Hne Hfree.
  induction lead as [|c lead IH]; cbn [only_of append strspn String.length]
    in *.
  - destruct name as [|d name]; [contradiction|].
    cbn [append strspn free_of] in *.
    apply andb_true_iff in Hfree as [Hd _]. apply negb_true_iff in Hd.
    rewrite Hd. reflexivity.
  - apply andb_true_iff in Hlead as [Hc Hlead].
    rewrite Hc, (IH Hlead). reflexivity.
Qed.

(** [strtok_r] skips the delimiters in front of the name. *)
Lemma strtok_r_lead delim lead name c value :
  only_of delim lead = true -> name <> EmptyString ->
  free_of delim name = true -> strchr delim c = true ->
  tok_token (strtok_r (lead ++ name ++ String c value) delim) = Some name /\
  tok_save (strtok_r (lead ++ name ++ String c value) delim) = Some value.
Proof.
  intros Hlead Hne Hfree Hc. unfold strtok_r.
  rewrite (strspn_lead _ _ _ _ Hlead Hne Hfree), drop_app_exact.
  destruct (name ++ String c value) as [|d s] eqn:Hs.
  - destruct name; discriminate Hs.
  - cbv zeta. rewrite <- Hs.
    rewrite (strcspn_free _ _ _ _ Hfree Hc), take_app_exact, drop_app_exact.
    split; reflexivity.
Qed.

Lemma only_of_free_of cs cs' s :
  only_of cs s = true -> (forall c, strchr cs c = true -> strchr cs' c = false)
  -> free_of cs' s = true.
Proof.
  intros Hs Hdisj. induction s as [|c s IH]; cbn [only_of free_of] in *;
    [reflexivity|].
  apply andb_true_iff in Hs as [Hc Hs].
  rewrite (Hdisj _ Hc), (IH Hs). reflexivity.
Qed.

Lemma free_of_no_strchr c s :
  free_of (String c EmptyString) s = true -> strchr s c = false.
Proof.
  intros H. apply (free_of_strchr _ _ _ H). cbn.
  rewrite Ascii.eqb_refl. reflexivity.
Qed.

Lemma blank_is_not_equals d :
  strchr " " d = true -> strchr "=" d = false.
Proof.
  cbn [strchr]. destruct (Ascii.eqb_spec " " d) as [<-|_];
    [reflexivity|discriminate].
Qed.

(** X3: a line made of blanks only is not a blank line: it is handed to
    the assignment code, has no name, and is rejected with [EINVAL] and a
    message, without a call to the store.  A line made of [=] only fares
    the same. *)
Theorem delimiter_only_line_is_invalid {VS : VarServer} fs recurse c line st :
  (c = " "%char \/ c = "="%char) ->
  only_of (String c EmptyString) (String c line) = true ->
  ProcessConfigLine fs recurse (String c line) st
  = Some (EINVAL,
          add_event (Log "Invalid Variable Assignment"
                         (pFileName st) (lineno st)) st).
Proof.
  intros Hc Honly.
  assert (Hpva : ProcessConfigLine fs recurse (String c line)
                 = ProcessVariableAssignment (String c line))
    by (destruct Hc as [-> | ->]; reflexivity).
  rewrite Hpva. apply no_token_is_invalid.
  assert (Hch : (if strchr (String c line) "=" then "=" else " ")
                = String c EmptyString).
  { destruct Hc as [-> | ->].
    - rewrite (free_of_no_strchr "=" (String " " line)); [reflexivity|].
      apply (only_of_free_of " " _ _ Honly).
      exact blank_is_not_equals.
    - cbn. reflexivity. }
  rewrite Hch. unfold strtok_r.
  rewrite (strspn_only _ _ Honly).
  assert (Hdrop : forall s, drop (String.length s) s = EmptyString).
  { induction s as [|d s IH]; [reflexivity|exact IH]. }
  rewrite Hdrop. reflexivity.
Qed.

Lemma free_of_app cs s t :
  free_of cs s = true -> free_of cs t = true -> free_of cs (s ++ t) = true.
Proof.
  intros Hs Ht. induction s as [|c s IH]; cbn [append free_of] in *;
    [exact Ht|].
  apply andb_true_iff in Hs as [Hc Hs]. rewrite Hc, (IH Hs). reflexivity.
Qed.

Lemma no_strchr_free_of c s :
  strchr s c = false -> free_of (String c EmptyString) s = true.
Proof.
  induction s as [|d s IH]; cbn [strchr free_of]; [reflexivity|].
  rewrite (Ascii.eqb_sym c d).
  destruct (Ascii.eqb d c); [discriminate|]. intros H.
  rewrite (IH H). reflexivity.
Qed.

(** X4: a line that begins with a blank is never a comment or a
    directive: the classifier looks at the first character only, so the
    line is handed to the assignment code, whatever follows the blanks.
    What the name is depends on the delimiter.  Without [=] in the line
    the delimiter is the blank: the leading blanks are skipped and the
    word behind them is the name, also when it starts with [#] or [@].
    With [=] in the line the delimiter is [=], no blank is skipped, and
    the name is everything in front of the first [=], the leading blanks
    included. *)
Theorem indented_line_is_an_assignment {VS : VarServer}
  fs recurse lead name value st :
  only_of " " (String " " lead) = true ->
  strchr name "=" = false ->
  let blanks := String " " lead in
  (forall rest,
     ProcessConfigLine fs recurse (blanks ++ rest)
     = ProcessVariableAssignment (blanks ++ rest)) /\
  (name <> EmptyString -> free_of " " name = true ->
   strchr value "=" = false ->
   exists st',
     ProcessConfigLine fs recurse (blanks ++ name ++ " " ++ value) st
     = Some (fst (VAR_SetNameValue (hVarServer st) name value), st') /\
     set_calls (trace st')
     = (set_calls (trace st) ++ [(name, value)])%list) /\
  (exists st',
     ProcessConfigLine fs recurse (blanks ++ name ++ "=" ++ value) st
     = Some (fst (VAR_SetNameValue (hVarServer st) (blanks ++ name) value),
             st') /\
     set_calls (trace st')
     = (set_calls (trace st) ++ [((blanks ++ name)%string, value)])%list).
Proof.
  intros Hlead Hname blanks.
  assert (Hblanks : free_of "=" blanks = true).
  { apply (only_of_free_of " " _ _ Hlead). exact blank_is_not_equals. }
  split; [reflexivity|]. split.
  - intros Hne Hfree Hvalue.
    change (ProcessConfigLine fs recurse (blanks ++ name ++ " " ++ value))
      with (ProcessVariableAssignment (blanks ++ name ++ " " ++ value)).
    destruct (assignment_calls_store
                (blanks ++ name ++ " " ++ value) name value st)
      as (st' & Hrun & Hcalls & _); [|eauto].
    cbv zeta.
    assert (Hnoeq : strchr (blanks ++ name ++ " " ++ value) "=" = false).
    { rewrite !strchr_app, Hname.
      rewrite (free_of_no_strchr "=" blanks Hblanks).
      cbn. exact Hvalue. }
    rewrite Hnoeq.
    exact (strtok_r_lead " " blanks name " " value Hlead Hne Hfree eq_refl).
  - change (ProcessConfigLine fs recurse (blanks ++ name ++ "=" ++ value))
      with (ProcessVariableAssignment (blanks ++ name ++ "=" ++ value)).
    destruct (assignment_calls_store
                (blanks ++ name ++ "=" ++ value) (blanks ++ name) value st)
      as (st' & Hrun & Hcalls & _); [|eauto].
    cbv zeta.
    assert (Heq : strchr (blanks ++ name ++ "=" ++ value) "=" = true).
    { rewrite !strchr_app. cbn [append strchr].
      rewrite Ascii.eqb_refl, !orb_true_r. reflexivity. }
    rewrite Heq.
    change (blanks ++ name ++ "=" ++ value)
      with (blanks ++ name ++ String "=" value).
    rewrite <- append_assoc.
    rewrite (strtok_r_split "=" (blanks ++ name) "=" value).
    + split; reflexivity.
    + discriminate.
    + apply free_of_app; [exact Hblanks|].
      apply no_strchr_free_of. exact Hname.
    + reflexivity.
Qed.

(** ** What a buffer does without entering a file *)

Section FlatBuffers.

Context {VS : VarServer}.
Variable fs : FileSystem.

Lemma scan_stops_at_NUL recurse pre :
  nul_free pre = true ->
  forall rest line result st,
    scan fs recurse (pre ++ String NUL rest) line result st
    = scan fs recurse pre line result st.
Proof.
  induction pre as [|c pre IH]; intros Hfree rest line result st.
  - reflexivity.
  - cbn [nul_free free_of strchr] in Hfree.
    apply andb_true_iff in Hfree as [Hc Hfree].
    cbn [append scan].
    destruct (Ascii.eqb c NUL); [reflexivity|].
    destruct (Ascii.eqb c LF).
    + apply bind_ext. intros r s. apply IH, Hfree.
    + apply IH, Hfree.
Qed.

Lemma ProcessVariableAssignment_returns line st :
  exists r, ProcessVariableAssignment line st = Some r.
Proof.
  destruct (tok_token (strtok_r line
              (if strchr line "=" then "=" else " "))) as [pVar|] eqn:Htok.
  - destruct (tok_save (strtok_r line
                (if strchr line "=" then "=" else " "))) as [pVal|] eqn:Hsave.
    + destruct (assignment_calls_store line pVar pVal st (conj Htok Hsave))
        as (st' & Hrun & _). eauto.
    + unfold ProcessVariableAssignment. rewrite Htok, Hsave.
      eexists. reflexivity.
  - rewrite (no_token_is_invalid line st Htok). eexists. reflexivity.
Qed.

(** A line that does not recurse is processed without the recursive call,
    so under any bound, and it returns. *)
Lemma flat_line recurse recurse' line st :
  recurses line = false ->
  ProcessConfigLine fs recurse line st = ProcessConfigLine fs recurse' line st
  /\ exists r, ProcessConfigLine fs recurse line st = Some r.
Proof.
  destruct line as [|c line];
    [intros _; split; [reflexivity|eexists; reflexivity]|].
  cbn [ProcessConfigLine].
  destruct (Ascii.eqb_spec c "#") as [->|Hhash].
  { intros _. split; [reflexivity|eexists; reflexivity]. }
  destruct (Ascii.eqb_spec c "@") as [->|Hat].
  - unfold recurses, directive_of, ProcessDirective.
    intros Hflat.
    apply orb_false_iff in Hflat as [Hflat Hdir].
    apply orb_false_iff in Hflat as [Hinc Hreq].
    rewrite Hinc, Hreq, Hdir.
    split; [reflexivity|].
    destruct (String.eqb _ "@config").
    + destruct (tok_save _) as [info|]; cbn [ProcessConfigDirective];
        [|eexists; reflexivity].
      cbv [bind say get when emit modify ret].
      destruct (verbose st); eexists; reflexivity.
    + cbv [bind LogError get emit modify ret]. eexists; reflexivity.
  - intros _. split; [reflexivity|].
    apply ProcessVariableAssignment_returns.
Qed.

(** X5: only [@include], [@require] and [@includedir] make
    [ProcessConfigLine] enter a file.  A line that is handed to it and
    whose first word is none of the three is processed without a call to
    [ProcessConfigFile]: the outcome is the same whatever the recursive
    call would do, the line returns, and the file name, the line number,
    the required flag and the verbose flag are as they were. *)
Theorem only_directives_enter_files recurse recurse' line st :
  recurses line = false ->
  ProcessConfigLine fs recurse line st = ProcessConfigLine fs recurse' line st
  /\ exists rc st',
       ProcessConfigLine fs recurse line st = Some (rc, st') /\
       pFileName st' = pFileName st /\ lineno st' = lineno st /\
       required st' = required st /\ verbose st' = verbose st.
Proof.
  intros Hflat.
  destruct (flat_line recurse recurse' line st Hflat) as (Heq & [rc st'] & Hrun).
  split; [exact Heq|]. exists rc, st'. split; [exact Hrun|].
  rewrite (proj1 (flat_line recurse (fun _ _ => None) line st Hflat)) in Hrun.
  refine (preserves_ProcessConfigLine fs
            (fun a b => pFileName b = pFileName a /\ lineno b = lineno a /\
                        required b = required a /\ verbose b = verbose a)
            _ _ _ _ (fun _ _ => None) _ line _ _ _ Hrun).
  - intros a. repeat split.
  - intros a b c (Hf & Hl & Hr & Hv) (Hf' & Hl' & Hr' & Hv').
    repeat split; congruence.
  - intros e a. repeat split.
  - intros h a. repeat split.
  - intros b f a r a' H. discriminate H.
Qed.

End FlatBuffers.

Section FlatScan.

Context {VS : VarServer}.
Variable fs : FileSystem.

Lemma skipped_segment recurse line workbuf result st :
  TEMPLATE_StrToFile (hVarServer st) line = (EOK, workbuf) ->
  skipped workbuf = true ->
  process_segment fs recurse line result st
  = Some (result, set_lineno (lineno st + 1) st).
Proof.
  intros Hexp Hskip. unfold process_segment.
  rewrite (bind_step _ _ st st st eq_refl), Hexp.
  change (EOK =? EOK) with true. cbv iota.
  assert (Hline : ProcessConfigLine fs recurse workbuf st = Some (EOK, st)).
  { destruct workbuf as [|c workbuf]; [reflexivity|].
    cbn [skipped] in Hskip. cbn [ProcessConfigLine]. rewrite Hskip.
    reflexivity. }
  cbv [bind]. rewrite Hline. reflexivity.
Qed.

Lemma skipped_scan recurse rest :
  forall line result st,
    (forall l h, In l (split_lines_from rest line) ->
                 exists workbuf,
                   TEMPLATE_StrToFile h l = (EOK, workbuf) /\
                   skipped workbuf = true) ->
    scan fs recurse rest line result st
    = Some (result,
            set_lineno
              (lineno st + Z.of_nat (length (split_lines_from rest line)))
              st).
Proof.
  assert (Hone : forall line result st,
    (exists workbuf,
       TEMPLATE_StrToFile (hVarServer st) line = (EOK, workbuf) /\
       skipped workbuf = true) ->
    process_segment fs recurse line result st
    = Some (result, set_lineno (lineno st + Z.of_nat 1) st)).
  { intros line result st (workbuf & Hexp & Hskip).
    exact (skipped_segment recurse line workbuf result st Hexp Hskip). }
  induction rest as [|c rest IH]; intros line result st Hskip;
    cbn [scan split_lines_from] in *.
  - apply Hone, Hskip. left. reflexivity.
  - destruct (Ascii.eqb c NUL); [apply Hone, Hskip; left; reflexivity|].
    destruct (Ascii.eqb c LF); [|exact (IH _ _ _ Hskip)].
    rewrite (bind_step _ _ _ _ _
               (Hone line result st (Hskip _ _ (or_introl eq_refl)))).
    rewrite IH; [|intros l h Hin; apply Hskip; right; exact Hin].
    cbn [length lineno set_lineno].
    replace (lineno st + Z.of_nat 1
             + Z.of_nat (length (split_lines_from rest EmptyString)))
      with (lineno st
            + Z.of_nat (S (length (split_lines_from rest EmptyString))))
      by lia.
    reflexivity.
Qed.

(** X6: a buffer whose lines all expand to an empty line or to a line
    starting with [#] returns [EOK] and does nothing but count its lines:
    no call to the store, no message, no file entered.  What decides is
    the expanded text: a raw line that expands to nothing is a blank
    line. *)
Theorem skipped_buffer_only_counts depth data st :
  (forall l h, In l (split_lines data) ->
               exists workbuf,
                 TEMPLATE_StrToFile h l = (EOK, workbuf) /\
                 skipped workbuf = true) ->
  ProcessConfigData fs depth data st
  = Some (EOK,
          set_lineno (lineno st + Z.of_nat (S (newlines data))) st).
Proof.
  intros Hskip. unfold ProcessConfigData, ProcessConfigData_body.
  rewrite (skipped_scan _ data EmptyString EOK st Hskip).
  rewrite split_lines_from_length. reflexivity.
Qed.

(** X7: nothing behind the first [NUL] byte of a buffer is processed. *)
Theorem nothing_behind_NUL depth pre rest st :
  nul_free pre = true ->
  ProcessConfigData fs depth (pre ++ String NUL rest) st
  = ProcessConfigData fs depth pre st.
Proof.
  intros Hfree. unfold ProcessConfigData, ProcessConfigData_body.
  apply scan_stops_at_NUL, Hfree.
Qed.

Lemma readdir_loop_returns recurse entries :
  (forall d_name s, In d_name entries ->
                    exists r, recurse (Some d_name) s = Some r) ->
  forall st, exists st', readdir_loop recurse entries st = Some (tt, st').
Proof.
  induction entries as [|d_name more IH]; intros Hret st;
    cbn [readdir_loop].
  - eexists. reflexivity.
  - rewrite (bind_step _ _ st tt (set_required false st) eq_refl).
    destruct (Hret d_name (set_required false st) (or_introl eq_refl))
      as ([rc s1] & Hcall).
    rewrite (bind_step _ _ _ _ _ Hcall).
    apply IH. intros e s Hin. apply Hret. right. exact Hin.
Qed.

(** X8: [@includedir] answers [EOK] whenever it returns, whatever the
    entries returned; it returns as soon as the processing of every entry
    does, and also when the directory cannot be opened. *)
Theorem includedir_swallows_failures recurse dir st :
  (forall rc st',
     ProcessIncludeDirDirective fs recurse (Some dir) st = Some (rc, st') ->
     rc = EOK) /\
  (forall entries,
     opendir fs dir = Some entries ->
     (forall d_name s, In d_name entries ->
                       exists r, recurse (Some d_name) s = Some r) ->
     exists st',
       ProcessIncludeDirDirective fs recurse (Some dir) st
       = Some (EOK, st')) /\
  (opendir fs dir = None ->
   ProcessIncludeDirDirective fs recurse (Some dir) st
   = Some (EOK, if verbose st
                then add_event (ProcessingDirectory dir) st else st)).
Proof.
  split; [|split].
  - intros rc st' Hrun. unfold ProcessIncludeDirDirective in Hrun.
    apply bind_Some in Hrun as ([] & s1 & _ & Hrun).
    apply bind_Some in Hrun as ([] & s2 & _ & [= <- _]). reflexivity.
  - intros entries Hdir Hret. unfold ProcessIncludeDirDirective.
    rewrite Hdir.
    destruct (readdir_loop_returns recurse entries Hret
                (if verbose st
                 then add_event (ProcessingDirectory dir) st else st))
      as (st' & Hloop).
    exists st'. cbv [bind say get when emit modify ret].
    destruct (verbose st); cbv [bind]; rewrite Hloop; reflexivity.
  - intros Hdir. unfold ProcessIncludeDirDirective. rewrite Hdir.
    cbv [bind say get when emit modify ret].
    destruct (verbose st); reflexivity.
Qed.

(** X9: the verbose flag is read-only during the traversal: whatever a
    file, a line or a buffer does, the flag is afterwards what it was. *)
Theorem verbose_is_read_only depth :
  (forall filename st rc st',
     ProcessConfigFile fs depth filename st = Some (rc, st') ->
     verbose st' = verbose st) /\
  (forall data st rc st',
     ProcessConfigData fs depth data st = Some (rc, st') ->
     verbose st' = verbose st) /\
  (forall line st rc st',
     ProcessConfigLine fs (ProcessConfigFile fs depth) line st
     = Some (rc, st') ->
     verbose st' = verbose st).
Proof.
  assert (Htrans : forall a b c : LoadState,
            verbose b = verbose a -> verbose c = verbose b ->
            verbose c = verbose a) by (intros; congruence).
  assert (Hcall : forall (b : bool) f (s : LoadState) r s',
            ProcessConfigFile fs depth f (set_required b s) = Some (r, s') ->
            verbose s' = verbose s).
  { intros b f s r s' Hrun.
    exact (ProcessConfigFile_verbose fs depth f _ _ _ Hrun). }
  split; [|split].
  - intros filename st rc st'. apply ProcessConfigFile_verbose.
  - intros data st rc st'.
    exact (preserves_scan fs (fun s s' => verbose s' = verbose s)
             (fun s => eq_refl) Htrans (fun e s => eq_refl)
             (fun h s => eq_refl) _ Hcall (fun n s => eq_refl)
             data EmptyString EOK st rc st').
  - intros line st rc st'.
    exact (preserves_ProcessConfigLine fs (fun s s' => verbose s' = verbose s)
             (fun s => eq_refl) Htrans (fun e s => eq_refl)
             (fun h s => eq_refl) _ Hcall line st rc st').
Qed.

End FlatScan.

(** ** What is read from the working buffer *)






(** ** Relations kept by every primitive step of the loader *)

Section Keeping.

Context {VS : VarServer}.
Variable fs : FileSystem.
Variable R : LoadState -> LoadState -> Prop.
Hypothesis R_refl : forall st, R st st.
Hypothesis R_trans : forall a b c, R a b -> R b c -> R a c.
Hypothesis R_say : forall e, chatty e = true -> preserves R (say e).
Hypothesis R_log : forall msg, preserves R (LogError msg).
Hypothesis R_set :
  forall name value, preserves R (call_VAR_SetNameValue name value).
Hypothesis R_required : forall b st, R st (set_required b st).
Hypothesis R_next : forall st, R st (set_lineno (lineno st + 1) st).

Variable recurse : option string -> M LoadState Z.
Hypothesis R_rec : forall f, preserves R (recurse f).

Lemma keeps_ProcessVariableAssignment line :
  preserves R (ProcessVariableAssignment line).
Proof.
  unfold ProcessVariableAssignment.
  destruct (tok_token _) as [pVar|]; [destruct (tok_save _) as [pVal|]|].
  - apply (preserves_bind R R_trans); [apply R_say; reflexivity|intros _].
    apply (preserves_bind R R_trans); [apply R_set|intros rc].
    apply (preserves_bind R R_trans); [|intros _; apply (preserves_ret R R_refl)].
    apply (preserves_when R R_refl). destruct (rc =? ENOENT); apply R_log.
  - apply (preserves_bind R R_trans); [apply R_log|intros _; apply (preserves_ret R R_refl)].
  - apply (preserves_bind R R_trans); [apply R_log|intros _; apply (preserves_ret R R_refl)].
Qed.

Lemma keeps_enter b e f :
  chatty e = true ->
  preserves R (modify (set_required b) ;; say e ;; recurse f).
Proof.
  intros He.
  apply (preserves_bind R R_trans); [apply (preserves_modify R), R_required|intros _].
  apply (preserves_bind R R_trans); [apply R_say, He|intros _; apply R_rec].
Qed.

Lemma keeps_readdir_loop entries :
  preserves R (readdir_loop recurse entries).
Proof.
  induction entries as [|d_name more IH]; cbn [readdir_loop];
    [apply (preserves_ret R R_refl)|].
  apply (preserves_bind R R_trans); [apply (preserves_modify R), R_required|intros _].
  apply (preserves_bind R R_trans); [apply R_rec|intros _; exact IH].
Qed.

Lemma keeps_ProcessConfigLine line :
  preserves R (ProcessConfigLine fs recurse line).
Proof.
  destruct line as [|c line]; cbn [ProcessConfigLine]; [apply (preserves_ret R R_refl)|].
  destruct (Ascii.eqb c "#"); [apply (preserves_ret R R_refl)|].
  destruct (Ascii.eqb c "@"); [|apply keeps_ProcessVariableAssignment].
  unfold ProcessDirective.
  destruct (String.eqb _ "@config").
  { destruct (tok_save _) as [info|]; cbn [ProcessConfigDirective];
      [|apply (preserves_ret R R_refl)].
    apply (preserves_bind R R_trans); [apply R_say; reflexivity|intros _; apply (preserves_ret R R_refl)]. }
  destruct (String.eqb _ "@include").
  { destruct (tok_save _) as [f|]; cbn [ProcessIncludeDirective];
      [apply keeps_enter; reflexivity|apply (preserves_ret R R_refl)]. }
  destruct (String.eqb _ "@require").
  { destruct (tok_save _) as [f|]; cbn [ProcessRequireDirective];
      [apply keeps_enter; reflexivity|apply (preserves_ret R R_refl)]. }
  destruct (String.eqb _ "@includedir").
  { destruct (tok_save _) as [d|]; cbn [ProcessIncludeDirDirective];
      [|apply (preserves_ret R R_refl)].
    apply (preserves_bind R R_trans); [apply R_say; reflexivity|intros _].
    apply (preserves_bind R R_trans); [|intros _; apply (preserves_ret R R_refl)].
    destruct (opendir fs d); [apply keeps_readdir_loop|apply (preserves_ret R R_refl)]. }
  apply (preserves_bind R R_trans); [apply R_log|intros _; apply (preserves_ret R R_refl)].
Qed.

Lemma keeps_process_segment line result :
  preserves R (process_segment fs recurse line result).
Proof.
  unfold process_segment.
  apply (preserves_bind R R_trans); [apply (preserves_get R R_refl)|intros st].
  destruct (TEMPLATE_StrToFile _ _) as [rc workbuf].
  apply (preserves_bind R R_trans).
  - destruct (rc =? EOK).
    + apply (preserves_bind R R_trans); [apply keeps_ProcessConfigLine|intros rc'].
      destruct (rc' =? EOK); [apply (preserves_ret R R_refl)|].
      apply (preserves_bind R R_trans); [apply R_log|intros _; apply (preserves_ret R R_refl)].
    + apply (preserves_bind R R_trans); [apply R_log|intros _; apply (preserves_ret R R_refl)].
  - intros result'. intros s a s' Hrun.
    apply bind_Some in Hrun as (s0 & s1 & [= <- <-] & Hrun).
    apply bind_Some in Hrun as ([] & s2 & [= <-] & [= _ <-]).
    apply R_next.
Qed.

Lemma keeps_scan rest :
  forall line result, preserves R (scan fs recurse rest line result).
Proof.
  induction rest as [|c rest IH]; intros line result; cbn [scan].
  - apply keeps_process_segment.
  - destruct (Ascii.eqb c NUL); [apply keeps_process_segment|].
    destruct (Ascii.eqb c LF); [|apply IH].
    apply (preserves_bind R R_trans); [apply keeps_process_segment|intros r; apply IH].
Qed.

(** *** Relations that do not care what the current place is *)

Hypothesis R_event_enter : forall name st, R st (add_event (Enter name) st).
Hypothesis R_event_failed : forall name st, R st (add_event (Failed name) st).
Hypothesis R_lineno : forall n st, R st (set_lineno n st).
Hypothesis R_file : forall f st, R st (set_pFileName f st).

Lemma keeps_ProcessConfigFile_body filename :
  preserves R (ProcessConfigFile_body fs recurse filename).
Proof.
  destruct filename as [name|]; cbn [ProcessConfigFile_body];
    [|apply (preserves_ret R R_refl)].
  apply (preserves_bind R R_trans); [apply (preserves_modify R), R_event_enter|intros _].
  apply (preserves_bind R R_trans); [apply (preserves_get R R_refl)|intros st].
  apply (preserves_bind R R_trans); [apply (preserves_modify R), R_lineno|intros _].
  apply (preserves_bind R R_trans); [apply (preserves_modify R), R_file|intros _].
  apply (preserves_bind R R_trans).
  - destruct (GetConfigData fs name); [apply keeps_scan|].
    apply (preserves_bind R R_trans); [apply (preserves_get R R_refl)|intros st1].
    destruct (required st1); apply (preserves_ret R R_refl).
  - intros result.
    apply (preserves_bind R R_trans); [apply (preserves_modify R), R_file|intros _].
    apply (preserves_bind R R_trans); [apply (preserves_modify R), R_lineno|intros _].
    apply (preserves_bind R R_trans); [|intros _; apply (preserves_ret R R_refl)].
    apply (preserves_when R R_refl), (preserves_modify R), R_event_failed.
Qed.

End Keeping.

(** ** What the trace of a run looks like *)

Section Traces.

Context {VS : VarServer}.
Variable fs : FileSystem.

Lemma stays_quiet_refl st : stays_quiet st st.
Proof.
  intros Hq. split; [exact Hq|]. exists []. split; [|constructor].
  symmetry. apply app_nil_r.
Qed.

Lemma stays_quiet_trans a b c :
  stays_quiet a b -> stays_quiet b c -> stays_quiet a c.
Proof.
  intros Hab Hbc Hq. destruct (Hab Hq) as (Hqb & t1 & Ht1 & Hf1).
  destruct (Hbc Hqb) as (Hqc & t2 & Ht2 & Hf2).
  split; [exact Hqc|]. exists (t1 ++ t2)%list. split.
  - rewrite Ht2, Ht1, app_assoc. reflexivity.
  - apply Forall_app. split; assumption.
Qed.

Lemma stays_quiet_event e st :
  chatty e = false -> stays_quiet st (add_event e st).
Proof.
  intros He Hq. split; [exact Hq|]. exists [e]. split; [reflexivity|].
  constructor; [exact He|constructor].
Qed.

Lemma stays_quiet_silent (f : LoadState -> LoadState) st :
  verbose (f st) = verbose st -> trace (f st) = trace st ->
  stays_quiet st (f st).
Proof.
  intros Hv Ht Hq. split; [congruence|]. exists []. split; [|constructor].
  rewrite Ht. symmetry. apply app_nil_r.
Qed.

Lemma ProcessConfigFile_stays_quiet depth :
  forall filename, preserves stays_quiet (ProcessConfigFile fs depth filename).
Proof.
  induction depth as [|d IH]; intros filename; cbn [ProcessConfigFile].
  - intros st rc st'. discriminate.
  - apply (keeps_ProcessConfigFile_body fs stays_quiet
             stays_quiet_refl stays_quiet_trans).
    + intros e _ st u st' Hrun Hq.
      cbv [say bind get when] in Hrun. rewrite Hq in Hrun.
      injection Hrun as _ <-. exact (stays_quiet_refl st Hq).
    + intros msg st u st' [= _ <-]. apply stays_quiet_event. reflexivity.
    + intros name value st rc st'. unfold call_VAR_SetNameValue.
      destruct (VAR_SetNameValue _ _ _) as [rc' h]. intros [= _ <-].
      apply (stays_quiet_trans _ (add_event (SetCall name value) st));
        [apply stays_quiet_event; reflexivity|].
      apply (stays_quiet_silent (set_hVarServer h)); reflexivity.
    + intros b st.
      apply (stays_quiet_silent (set_required b)); reflexivity.
    + intros st.
      apply (stays_quiet_silent (set_lineno (lineno st + 1))); reflexivity.
    + exact IH.
    + intros name st. apply stays_quiet_event. reflexivity.
    + intros name st. apply stays_quiet_event. reflexivity.
    + intros n st. apply (stays_quiet_silent (set_lineno n)); reflexivity.
    + intros f st. apply (stays_quiet_silent (set_pFileName f)); reflexivity.
Qed.

(** X10: when the verbose flag is off, a run prints none of the
    "Processing", "Including", "Processing directory" and "Setting"
    lines: all it adds to the trace are the announcements of the files it
    enters, the calls to the store, the error messages and the
    "Failed to process" lines. *)
Theorem quiet_run_is_quiet depth filename st rc st' :
  verbose st = false ->
  ProcessConfigFile fs depth filename st = Some (rc, st') ->
  exists tl, trace st' = (trace st ++ tl)%list /\
             Forall (fun e => chatty e = false) tl.
Proof.
  intros Hq Hrun.
  exact (proj2 (ProcessConfigFile_stays_quiet depth filename st rc st'
                  Hrun Hq)).
Qed.

(** *** The store and the set calls *)

Lemma replay_app calls calls' (h : Store) :
  replay (calls ++ calls') h = replay calls' (replay calls h).
Proof.
  revert h. induction calls as [|[name value] calls IH]; intros h;
    [reflexivity|apply IH].
Qed.

Lemma store_replayed_refl st : store_replayed st st.
Proof. exists []. split; [symmetry; apply app_nil_r|reflexivity]. Qed.

Lemma store_replayed_trans a b c :
  store_replayed a b -> store_replayed b c -> store_replayed a c.
Proof.
  intros (t1 & Ht1 & Hs1) (t2 & Ht2 & Hs2). exists (t1 ++ t2)%list. split.
  - rewrite Ht2, Ht1, app_assoc. reflexivity.
  - rewrite set_calls_app, replay_app, <- Hs1. exact Hs2.
Qed.

Lemma store_replayed_event e st :
  set_calls [e] = [] -> store_replayed st (add_event e st).
Proof. intros He. exists [e]. rewrite He. split; reflexivity. Qed.

Lemma store_replayed_silent (f : LoadState -> LoadState) st :
  hVarServer (f st) = hVarServer st -> trace (f st) = trace st ->
  store_replayed st (f st).
Proof.
  intros Hh Ht. exists []. rewrite Ht, Hh.
  split; [symmetry; apply app_nil_r|reflexivity].
Qed.

Lemma ProcessConfigFile_store_replayed depth :
  forall filename,
    preserves store_replayed (ProcessConfigFile fs depth filename).
Proof.
  induction depth as [|d IH]; intros filename; cbn [ProcessConfigFile].
  - intros st rc st'. discriminate.
  - apply (keeps_ProcessConfigFile_body fs store_replayed
             store_replayed_refl store_replayed_trans).
    + intros e He st u st' Hrun.
      cbv [say bind get when emit modify ret] in Hrun.
      destruct (verbose st); injection Hrun as _ <-;
        [|apply store_replayed_refl].
      apply store_replayed_event. destruct e; try discriminate He;
        reflexivity.
    + intros msg st u st' [= _ <-]. apply store_replayed_event. reflexivity.
    + intros name value st rc st'. unfold call_VAR_SetNameValue.
      destruct (VAR_SetNameValue (hVarServer st) name value) as [rc' h]
        eqn:Hset.
      intros [= _ <-]. exists [SetCall name value].
      split; [reflexivity|]. cbn. rewrite Hset. reflexivity.
    + intros b st.
      apply (store_replayed_silent (set_required b)); reflexivity.
    + intros st.
      apply (store_replayed_silent (set_lineno (lineno st + 1)));
        reflexivity.
    + exact IH.
    + intros name st. apply store_replayed_event. reflexivity.
    + intros name st. apply store_replayed_event. reflexivity.
    + intros n st.
      apply (store_replayed_silent (set_lineno n)); reflexivity.
    + intros f st.
      apply (store_replayed_silent (set_pFileName f)); reflexivity.
Qed.

End Traces.

(** X11: a run changes the store through [VAR_SetNameValue] and through
    nothing else: the store it leaves is the store it found with the set
    calls it added to the trace applied in order, so a run without a set
    call leaves the store as it was. *)
Theorem store_follows_set_calls {VS : VarServer} fs depth filename st rc st' :
  ProcessConfigFile fs depth filename st = Some (rc, st') ->
  exists tl,
    trace st' = (trace st ++ tl)%list /\
    hVarServer st' = replay (set_calls tl) (hVarServer st) /\
    (set_calls tl = [] -> hVarServer st' = hVarServer st).
Proof.
  intros Hrun.
  destruct (ProcessConfigFile_store_replayed fs depth filename st rc st' Hrun)
    as (tl & Htrace & Hstore).
  exists tl. split; [exact Htrace|]. split; [exact Hstore|].
  intros Hnone. rewrite Hstore, Hnone. reflexivity.
Qed.

(** ** Where the messages point *)

Section Placement.

Context {VS : VarServer}.
Variable fs : FileSystem.

Lemma messages_placed_refl st : messages_placed st st.
Proof. exists []. split; [symmetry; apply app_nil_r|constructor]. Qed.

Lemma messages_placed_trans a b c :
  messages_placed a b -> messages_placed b c -> messages_placed a c.
Proof.
  intros (t1 & Ht1 & Hf1) (t2 & Ht2 & Hf2). exists (t1 ++ t2)%list. split.
  - rewrite Ht2, Ht1, app_assoc. reflexivity.
  - apply Forall_app. split; assumption.
Qed.

Lemma well_placed_refl st : well_placed st st.
Proof. intros [Hf Hl]. auto using messages_placed_refl. Qed.

Lemma well_placed_trans a b c :
  well_placed a b -> well_placed b c -> well_placed a c.
Proof.
  intros Hab Hbc Ha. destruct (Hab Ha) as (Hf & Hl & Hm).
  destruct (Hbc (conj Hf Hl)) as (Hf' & Hl' & Hm').
  eauto using messages_placed_trans.
Qed.

(** A step that keeps the place and adds one placed event, or none. *)
Lemma well_placed_step (f : LoadState -> LoadState) st tl :
  pFileName (f st) = pFileName st -> lineno st <= lineno (f st) ->
  trace (f st) = (trace st ++ tl)%list ->
  (pFileName st <> None /\ 1 <= lineno st -> Forall placed tl) ->
  well_placed st (f st).
Proof.
  intros Hf Hl Ht Hp [Hfile Hline]. rewrite Hf. split; [exact Hfile|].
  split; [lia|]. exists tl. split; [exact Ht|]. apply Hp. auto.
Qed.

Lemma ProcessConfigFile_messages_placed depth :
  forall filename,
    preserves messages_placed (ProcessConfigFile fs depth filename).
Proof.
  induction depth as [|d IH]; intros filename; cbn [ProcessConfigFile].
  - intros st rc st'. discriminate.
  - destruct filename as [name|]; cbn [ProcessConfigFile_body];
      [|intros st rc st' [= _ <-]; apply messages_placed_refl].
    intros st rc st' Hrun.
    apply bind_Some in Hrun as ([] & s1 & [= <-] & Hrun).
    apply bind_Some in Hrun as (s & s2 & [= <- <-] & Hrun).
    apply bind_Some in Hrun as ([] & s3 & [= <-] & Hrun).
    apply bind_Some in Hrun as ([] & s4 & [= <-] & Hrun).
    apply bind_Some in Hrun as (result & s5 & Hinner & Hrun).
    apply bind_Some in Hrun as ([] & s6 & [= <-] & Hrun).
    apply bind_Some in Hrun as ([] & s7 & [= <-] & Hrun).
    apply bind_Some in Hrun as ([] & s8 & Hfail & [= _ <-]).
    set (entered := set_pFileName (Some name)
                      (set_lineno 1 (add_event (Enter name) st))) in *.
    assert (Hin : well_placed entered s5).
    { destruct (GetConfigData fs name) as [data|].
      - refine (keeps_scan fs well_placed well_placed_refl well_placed_trans
                  _ _ _ _ _ (ProcessConfigFile fs d) _
                  data EmptyString EOK entered result s5 Hinner).
        + intros e He s u s' Hsay.
          cbv [say bind get when emit modify ret] in Hsay.
          destruct (verbose s); injection Hsay as _ <-;
            [|apply well_placed_refl].
          apply (well_placed_step (add_event e) s [e]);
            [reflexivity|cbn; lia|reflexivity|].
          intros _. constructor; [|constructor].
          destruct e; try discriminate He; exact I.
        + intros msg s u s' [= _ <-].
          apply (well_placed_step
                   (add_event (Log msg (pFileName s) (lineno s))) s
                   [Log msg (pFileName s) (lineno s)]);
            [reflexivity|cbn; lia|reflexivity|].
          intros Hplace. constructor; [exact Hplace|constructor].
        + intros n v s r s'. unfold call_VAR_SetNameValue.
          destruct (VAR_SetNameValue _ _ _) as [rc' h]. intros [= _ <-].
          apply (well_placed_step
                   (fun s => set_hVarServer h (add_event (SetCall n v) s))
                   s [SetCall n v]);
            [reflexivity|cbn; lia|reflexivity|].
          intros _. constructor; [exact I|constructor].
        + intros b s.
          apply (well_placed_step (set_required b) s []);
            [reflexivity|cbn; lia|symmetry; apply app_nil_r|].
          intros _. constructor.
        + intros s.
          apply (well_placed_step (set_lineno (lineno s + 1)) s []);
            [reflexivity|cbn; lia|symmetry; apply app_nil_r|].
          intros _. constructor.
        + intros f s r s' Hcall [Hfile Hline].
          destruct (ProcessConfigFile_restores fs _ _ _ _ _ Hcall)
            as [Hf Hl].
          rewrite Hf, Hl. split; [exact Hfile|]. split; [exact Hline|].
          exact (IH f s r s' Hcall).
      - apply bind_Some in Hinner as (s0 & s0' & [= <- <-] & Hinner).
        destruct (required entered); injection Hinner as _ <-;
          apply well_placed_refl. }
    destruct Hin as (_ & _ & tl & Htrace & Hplaced).
    { split; [discriminate|]. cbn. lia. }
    exists (Enter name :: tl
            ++ (if negb (result =? EOK) then [Failed name] else []))%list.
    split.
    + destruct (negb (result =? EOK)); cbv [when emit modify ret] in Hfail;
        injection Hfail as <-;
        cbn [trace add_event set_lineno set_pFileName];
        rewrite Htrace; subst entered;
        cbn [trace add_event set_lineno set_pFileName];
        rewrite <- ?app_assoc, ?app_nil_r; reflexivity.
    + constructor; [exact I|]. apply Forall_app. split; [exact Hplaced|].
      destruct (negb (result =? EOK)); repeat constructor.
Qed.

(** X12: every error message of a run names a file and a line of it: the
    file name is never missing and the line number is at least 1
    (numbering starts at 1 in every file), wherever the run started. *)
Theorem messages_name_a_place depth filename st rc st' :
  ProcessConfigFile fs depth filename st = Some (rc, st') ->
  exists tl, trace st' = (trace st ++ tl)%list /\ Forall placed tl.
Proof. apply ProcessConfigFile_messages_placed. Qed.

End Placement.

(** ** Start-up *)

Lemma traversal_steps {VS : VarServer} fs depth st :
  Startup.traversal fs depth st
  = ProcessConfigFile fs depth (pFileName st) (set_required true st).
Proof. reflexivity. Qed.

Section StartupFacts.

Import Startup.

Context {VS : VarServer}.
Variable fs : FileSystem.

Lemma process_option_fields argv0 r (p : Process) :
  let p' := process_option argv0 r p in
  pFileName (state p')
  = (if Ascii.eqb (opt r) "f" then Some (optarg r)
     else pFileName (state p)) /\
  workbufSize p'
  = (if Ascii.eqb (opt r) "w" then to_int (atol (optarg r))
     else workbufSize p) /\
  verbose (state p') = (Ascii.eqb (opt r) "v" || verbose (state p)) /\
  hVarServer (state p') = hVarServer (state p) /\
  lineno (state p') = lineno (state p) /\
  required (state p') = required (state p) /\
  trace (state p') = trace (state p) /\
  fd p' = fd p /\ workbuf p' = workbuf p /\ clientname p' = clientname p.
Proof.
  cbv zeta. unfold process_option.
  destruct (Ascii.eqb_spec (opt r) "v") as [->|_];
    [cbn; repeat split; reflexivity|].
  destruct (Ascii.eqb_spec (opt r) "h") as [->|_].
  { destruct argv0; cbn; repeat split; reflexivity. }
  destruct (Ascii.eqb_spec (opt r) "f") as [->|_];
    [cbn; repeat split; reflexivity|].
  destruct (Ascii.eqb_spec (opt r) "w") as [_|_];
    cbn; repeat split; reflexivity.
Qed.

(** X13: [ProcessOptions] answers 0 whatever the options are, and a later
    option overrides an earlier one: the file name is the argument of the
    last [-f], the working buffer size the [int] value of [atol] of the
    argument of the last [-w], and the verbose flag is set by any [-v];
    without the option the field keeps its value.  Nothing else of the
    load state changes; [-h] and unknown options change nothing (and do
    not stop the program). *)
Theorem ProcessOptions_last_wins argv0 results (p : Process) :
  let p' := snd (ProcessOptions argv0 results p) in
  fst (ProcessOptions argv0 results p) = 0 /\
  pFileName (state p')
  = match last_arg "f" results with
    | Some a => Some a
    | None => pFileName (state p)
    end /\
  workbufSize p'
  = match last_arg "w" results with
    | Some a => to_int (atol a)
    | None => workbufSize p
    end /\
  verbose (state p') = (given "v" results || verbose (state p)) /\
  hVarServer (state p') = hVarServer (state p) /\
  lineno (state p') = lineno (state p) /\
  required (state p') = required (state p) /\
  trace (state p') = trace (state p) /\
  fd p' = fd p /\ workbuf p' = workbuf p /\ clientname p' = clientname p.
Proof.
  cbv zeta. unfold ProcessOptions. cbn [fst snd].
  split; [reflexivity|].
  revert p. induction results as [|r more IH]; intros p.
  - cbn. repeat split; reflexivity.
  - cbn [fold_left last_arg given existsb].
    destruct (IH (process_option argv0 r p))
      as (Hf & Hw & Hv & Hh & Hl & Hr & Ht & Hfd & Hwb & Hc).
    destruct (process_option_fields argv0 r p)
      as (Hf' & Hw' & Hv' & Hh' & Hl' & Hr' & Ht' & Hfd' & Hwb' & Hc').
    cbv zeta in *.
    repeat split; try congruence.
    + rewrite Hf, Hf'. destruct (last_arg "f" more); [reflexivity|].
      destruct (Ascii.eqb (opt r) "f"); reflexivity.
    + rewrite Hw, Hw'. destruct (last_arg "w" more); [reflexivity|].
      destruct (Ascii.eqb (opt r) "w"); reflexivity.
    + rewrite Hv, Hv'. fold (given "v" more).
      destruct (Ascii.eqb (opt r) "v"), (given "v" more),
        (verbose (state p)); reflexivity.
Qed.

Lemma CreateWorkingBuffer_state sys (p : Process) :
  state (snd (CreateWorkingBuffer sys p)) = state p.
Proof.
  unfold CreateWorkingBuffer.
  destruct (0 <? workbufSize p); [|reflexivity].
  destruct (shm_open sys) as [d|e];
    [destruct (ftruncate sys) as [[]|e];
       [destruct (mmap sys) as [[]|e]|]|];
    cbn; try destruct (e =? EOK); reflexivity.
Qed.

Lemma DestroyWorkingBuffer_state (p : Process) :
  state (DestroyWorkingBuffer p) = state p.
Proof.
  unfold DestroyWorkingBuffer.
  destruct (workbuf p); cbn;
    match goal with |- context [if ?b then _ else _] => destruct b end;
    reflexivity.
Qed.

(** X14: without a [-f] option nothing is processed and nothing is said
    about it: [main] hands [NULL] to [ProcessConfigFile], which answers
    [EINVAL] at once; no file is entered, the store is not called and
    keeps its state, and no "Failed to process" is printed. *)
Theorem no_file_name_no_processing argc argv0 sys results h depth :
  2 <= argc -> last_arg "f" results = None ->
  exists p,
    Startup.main fs argc argv0 sys results h (S depth) = Some p /\
    hVarServer (state p) = h /\
    pFileName (state p) = None /\
    (forall e, In e (trace (state p)) ->
               e = Log "Cannot create working buffer" None 0).
Proof.
  intros Hargc Hnof. unfold Startup.main.
  destruct (Z.ltb_spec argc 2) as [Hlt|_]; [lia|].
  pose proof (ProcessOptions_last_wins argv0 results (start h)) as Hopt.
  destruct (ProcessOptions argv0 results (start h)) as [z p1].
  cbv zeta in Hopt. cbn [fst snd] in Hopt.
  destruct Hopt as (_ & Hf & _ & _ & Hh & Hl & _ & Ht & _).
  rewrite Hnof in Hf. cbn in Hf, Hh, Hl, Ht.
  destruct (VARSERVER_Open sys).
  - pose proof (CreateWorkingBuffer_state sys p1) as Hstate.
    destruct (CreateWorkingBuffer sys p1) as [rc p2]. cbn [snd] in Hstate.
    destruct (rc =? EOK).
    + unfold run. rewrite traversal_steps, Hstate, Hf.
      cbn [ProcessConfigFile ProcessConfigFile_body ret].
      eexists. split; [reflexivity|].
      cbn [state print with_state]. rewrite DestroyWorkingBuffer_state.
      cbn [state with_state hVarServer pFileName trace set_required].
      rewrite Hh, Hf, Ht. repeat split; try reflexivity.
      intros e [].
    + unfold run, LogError. cbv [bind get emit modify].
      rewrite Hstate. eexists. split; [reflexivity|].
      cbn [state print with_state hVarServer pFileName trace add_event].
      rewrite Hh, Hf, Ht, Hl. repeat split; try reflexivity.
      intros e [<-|[]]. reflexivity.
  - exists p1. rewrite Hh, Hf, Ht. repeat split; try reflexivity.
    intros e [].
Qed.

End StartupFacts.

Section WorkingBuffer.

Import Startup.

Context {VS : VarServer}.
Variable fs : FileSystem.

Lemma process_option_console argv0 r (p : Process) :
  exists said,
    console (process_option argv0 r p) = (console p ++ said)%list /\
    Forall (fun c => exists name, c = UsageText name) said.
Proof.
  unfold process_option.
  assert (Hnone : exists said,
            console p = (console p ++ said)%list /\
            Forall (fun c => exists name, c = UsageText name) said).
  { exists []. split; [symmetry; apply app_nil_r|constructor]. }
  destruct (Ascii.eqb (opt r) "v"); [exact Hnone|].
  destruct (Ascii.eqb (opt r) "h").
  { destruct argv0 as [name|]; [|exact Hnone].
    exists [UsageText name]. split; [reflexivity|].
    constructor; [eauto|constructor]. }
  destruct (Ascii.eqb (opt r) "f"); [exact Hnone|].
  destruct (Ascii.eqb (opt r) "w"); exact Hnone.
Qed.

Lemma ProcessOptions_console argv0 results :
  forall p : Process,
  exists said,
    console (snd (ProcessOptions argv0 results p))
    = (console p ++ said)%list /\
    Forall (fun c => exists name, c = UsageText name) said.
Proof.
  unfold ProcessOptions. cbn [snd].
  induction results as [|r more IH]; intros p; cbn [fold_left].
  - exists []. split; [symmetry; apply app_nil_r|constructor].
  - destruct (process_option_console argv0 r p) as (s1 & H1 & F1).
    destruct (IH (process_option argv0 r p)) as (s2 & H2 & F2).
    exists (s1 ++ s2)%list. split.
    + rewrite H2, H1, app_assoc. reflexivity.
    + apply Forall_app. split; assumption.
Qed.

(** X15: a working buffer size that is not positive stops the program
    before any file is read: [CreateWorkingBuffer] answers [EINVAL]
    without a system call, [main] logs "Cannot create working buffer" and
    only closes the server.  This is what [-w] does with an argument
    that does not start with a number, since [atol] then yields 0. *)
Theorem nonpositive_buffer_size_stops argc argv0 sys results h depth a :
  2 <= argc -> VARSERVER_Open sys = true ->
  last_arg "w" results = Some a -> to_int (atol a) <= 0 ->
  (exists p said,
     Startup.main fs argc argv0 sys results h depth = Some p /\
     trace (state p)
     = [Log "Cannot create working buffer" (last_arg "f" results) 0] /\
     hVarServer (state p) = h /\
     console p = (said ++ [BufferError EINVAL; CallServerClose])%list /\
     Forall (fun c => exists name, c = UsageText name) said) /\
  (forall c s,
     isspace c = false -> digit c = None ->
     c <> "-"%char -> c <> "+"%char ->
     to_int (atol (String c s)) = 0).
Proof.
  intros Hargc Hup Hw Hsize. split.
  - unfold Startup.main.
    destruct (Z.ltb_spec argc 2) as [Hlt|_]; [lia|].
    pose proof (ProcessOptions_last_wins argv0 results (start h)) as Hopt.
    destruct (ProcessOptions_console argv0 results (start h))
      as (said & Hsaid & Husage).
    destruct (ProcessOptions argv0 results (start h)) as [z p1].
    cbv zeta in Hopt. cbn [fst snd] in Hopt, Hsaid.
    destruct Hopt as (_ & Hf & Hsz & _ & Hh & Hl & _ & Ht & _).
    rewrite Hw in Hsz. cbn in Hf, Hh, Hl, Ht, Hsaid.
    rewrite Hup. unfold CreateWorkingBuffer.
    destruct (Z.ltb_spec 0 (workbufSize p1)) as [Hpos|_]; [lia|].
    change (EINVAL =? EOK) with false. cbv iota.
    unfold run, LogError. cbv [bind get emit modify].
    cbn [state print]. eexists _, said. split; [reflexivity|].
    cbn [state print with_state trace add_event hVarServer pFileName
         console].
    rewrite Ht, Hl, Hh, Hf, Hsaid. repeat split; try reflexivity.
    + destruct (last_arg "f" results); reflexivity.
    + rewrite <- app_assoc. reflexivity.
    + exact Husage.
  - intros c s Hspace Hdigit Hminus Hplus. unfold atol.
    rewrite Hspace.
    assert (Hvalue : match String c s with
                     | String "-" s' => - digits s' 0
                     | String "+" s' => digits s' 0
                     | s' => digits s' 0
                     end = 0).
    { destruct (Ascii.eqb_spec c "-") as [->|_]; [contradiction|].
      destruct (Ascii.eqb_spec c "+") as [->|_]; [contradiction|].
      assert (Hd : digits (String c s) 0 = 0)
        by (cbn [digits]; rewrite Hdigit; reflexivity).
      destruct c as [[] [] [] [] [] [] [] []]; try exact Hd;
        contradiction. }
    rewrite Hvalue. reflexivity.
Qed.

Lemma size_in_range w :
  0 < w < 2147483647 ->
  to_size_t (to_int (w + 1)) = w + 1 /\
  to_off_t (to_size_t (to_int (w + 1))) = w + 1.
Proof.
  intros Hw. unfold to_size_t, to_off_t, to_int.
  change (2 ^ 31) with 2147483648. change (2 ^ 32) with 4294967296.
  change (2 ^ 63) with 9223372036854775808.
  change (2 ^ 64) with 18446744073709551616.
  rewrite (Z.mod_small (w + 1 + 2147483648)) by lia.
  replace (w + 1 + 2147483648 - 2147483648) with (w + 1) by lia.
  rewrite (Z.mod_small (w + 1)) by lia.
  rewrite (Z.mod_small (w + 1 + 9223372036854775808)) by lia.
  split; lia.
Qed.

(** X16: the shared memory object of the working buffer is released on
    the way out only when the buffer was mapped.  For a buffer size
    between 1 and [INT_MAX - 1], for which the size of the object, one
    more, is still an [int]: after a successful [CreateWorkingBuffer] and
    the traversal, [main] unmaps the buffer, closes the descriptor and
    unlinks the name; when [ftruncate] or [mmap] fails after [shm_open]
    succeeded, the descriptor is closed but the name is not unlinked, and
    no file is read. *)
Theorem working_buffer_release argc argv0 sys results h depth d :
  let p1 := snd (ProcessOptions argv0 results (start h)) in
  let size := workbufSize p1 in
  let pid := getpid sys in
  2 <= argc -> VARSERVER_Open sys = true -> 0 < size < 2147483647 ->
  shm_open sys = Ok d ->
  (ftruncate sys = Ok tt -> mmap sys = Ok tt ->
   forall p,
     Startup.main fs argc argv0 sys results h depth = Some p ->
     console p
     = (console p1
        ++ [CallShmOpen pid; CallFtruncate d (size + 1);
            CallMmap d (size + 1); CallMunmap size]
        ++ (if d =? -1 then [] else [CallClose d])
        ++ [CallShmUnlink (Some pid); CallServerClose])%list) /\
  (forall e,
     e <> EOK ->
     ftruncate sys = Err e \/ (ftruncate sys = Ok tt /\ mmap sys = Err e) ->
     exists p,
       Startup.main fs argc argv0 sys results h depth = Some p /\
       trace (state p)
       = [Log "Cannot create working buffer" (last_arg "f" results) 0] /\
       (forall name, ~ In (CallShmUnlink name) (console p)) /\
       In (CallShmOpen pid) (console p) /\ In (CallClose d) (console p)).
Proof.
  cbv zeta. intros Hargc Hup Hpos Hopen.
  pose proof (ProcessOptions_last_wins argv0 results (start h)) as Hopt.
  destruct (ProcessOptions_console argv0 results (start h))
    as (said & Hsaid & Husage).
  unfold Startup.main.
  destruct (Z.ltb_spec argc 2) as [Hlt|_]; [lia|].
  destruct (ProcessOptions argv0 results (start h)) as [z p1].
  cbv zeta in Hopt. cbn [fst snd] in *.
  destruct Hopt as (_ & Hf & _ & _ & Hh & Hl & _ & Ht & _).
  cbn in Hf, Hh, Hl, Ht, Hsaid.
  rewrite Hup. unfold CreateWorkingBuffer.
  destruct (Z.ltb_spec 0 (workbufSize p1)) as [_|Hle]; [|lia].
  destruct (size_in_range (workbufSize p1) Hpos) as [Hsize Hlength].
  rewrite Hlength, Hsize.
  rewrite Hopen. split.
  - intros Htrunc Hmap p. rewrite Htrunc, Hmap.
    change (EOK =? EOK) with true. cbv iota.
    unfold run. cbn [state set_buffer print set_clientname].
    destruct (traversal fs depth (state p1)) as [[rc st]|];
      [|discriminate].
    intros [= <-]. unfold DestroyWorkingBuffer.
    cbn [workbuf fd set_buffer with_state print workbufSize clientname
         set_clientname console].
    destruct (d =? -1); cbn; rewrite <- !app_assoc; reflexivity.
  - intros e He Hfail.
    assert (Hne : (e =? EOK) = false) by (apply Z.eqb_neq, He).
    assert (Hnot : forall name, ~ In (CallShmUnlink name) said).
    { intros name Hin. rewrite Forall_forall in Husage.
      destruct (Husage _ Hin) as [n Hn]. discriminate Hn. }
    destruct Hfail as [Htrunc|[Htrunc Hmap]].
    + rewrite Htrunc. cbv beta iota zeta. rewrite !Hne.
      cbv beta iota zeta. rewrite ?Hne.
      unfold run, LogError. cbv [bind get emit modify].
      eexists. split; [reflexivity|].
      cbn [state print with_state set_buffer set_clientname trace
           add_event pFileName lineno console].
      rewrite Ht, Hl, Hf, Hsaid. cbn [app].
      split; [destruct (last_arg "f" results); reflexivity|].
      split; [|split].
      * intros name Hin. rewrite !in_app_iff in Hin. cbn in Hin.
        destruct Hin as [[[[[Hin|[Hin|[]]]|[Hin|[]]]|[Hin|[]]]|[Hin|[]]]
                        |[Hin|[]]];
          try discriminate Hin. exact (Hnot name Hin).
      * rewrite !in_app_iff. cbn. auto 10.
      * rewrite !in_app_iff. cbn. auto 10.
    + rewrite Htrunc, Hmap. cbv beta iota zeta. rewrite !Hne.
      cbv beta iota zeta. rewrite ?Hne.
      unfold run, LogError. cbv [bind get emit modify].
      eexists. split; [reflexivity|].
      cbn [state print with_state set_buffer set_clientname trace
           add_event pFileName lineno console].
      rewrite Ht, Hl, Hf, Hsaid. cbn [app].
      split; [destruct (last_arg "f" results); reflexivity|].
      split; [|split].
      * intros name Hin. rewrite !in_app_iff in Hin. cbn in Hin.
        destruct Hin as [[[[[[Hin|[Hin|[]]]|[Hin|[]]]|[Hin|[]]]|[Hin|[]]]
                         |[Hin|[]]]|[Hin|[]]];
          try discriminate Hin. exact (Hnot name Hin).
      * rewrite !in_app_iff. cbn. auto 10.
      * rewrite !in_app_iff. cbn. auto 10.
Qed.

End WorkingBuffer.

(** * The further properties at work *)

Lemma include_and_require_agree_witness :
  let st := Toy.initial "main.cfg" in
  GetConfigData Toy.nested_fs "sub.cfg"
  = Some ("@config sub" ++ eol ++ "novalue" ++ eol ++ "=") /\
  agree (ProcessConfigLine Toy.nested_fs (ProcessConfigFile Toy.nested_fs 1)
           ("@include " ++ "sub.cfg") st)
        (ProcessConfigLine Toy.nested_fs (ProcessConfigFile Toy.nested_fs 1)
           ("@require " ++ "sub.cfg") st).
Proof.
  cbv zeta.
  assert (Hget : GetConfigData Toy.nested_fs "sub.cfg"
                 = Some ("@config sub" ++ eol ++ "novalue" ++ eol ++ "="))
    by (vm_compute; reflexivity).
  split; [exact Hget|].
  exact (proj1 (include_and_require_agree Toy.nested_fs 1 "sub.cfg" _
                  (Toy.initial "main.cfg") Hget)).
Defined.

Lemma unknown_directive_is_rejected_witness :
  let st := Toy.initial "main.cfg" in
  ProcessConfigLine Toy.empty_fs (ProcessConfigFile Toy.empty_fs 0)
    "@Include sub.cfg" st
  = Some (ENOTSUP, add_event (Log "unknown directive" (Some "main.cfg") 0) st)
  /\
  (GetConfigData ToyStartup.glued_fs "odd.cfg"
   = Some (CONFIG_TAG ++ "uration") /\
   exists st',
     ProcessConfigFile ToyStartup.glued_fs 1 (Some "odd.cfg") st
     = Some (ENOTSUP, st') /\
     trace st'
     = (trace st
        ++ [Enter "odd.cfg"; Log "unknown directive" (Some "odd.cfg") 1;
            Log "Config error" (Some "odd.cfg") 1; Failed "odd.cfg"])%list).
Proof.
  cbv zeta. split.
  - exact (proj1 (@unknown_directive_is_rejected Toy.server Toy.empty_fs)
             (ProcessConfigFile Toy.empty_fs 0) "Include sub.cfg"
             (Toy.initial "main.cfg") eq_refl).
  - apply (proj2 (@unknown_directive_is_rejected Toy.server
                    ToyStartup.glued_fs) 0%nat "odd.cfg" "uration"
             (Toy.initial "main.cfg"));
      [discriminate|reflexivity..].
Defined.

Lemma delimiter_only_line_is_invalid_witness :
  let st := Toy.initial "main.cfg" in
  ProcessConfigLine Toy.empty_fs (ProcessConfigFile Toy.empty_fs 0) "   " st
  = Some (EINVAL,
          add_event (Log "Invalid Variable Assignment" (Some "main.cfg") 0)
                    st).
Proof.
  cbv zeta.
  apply (@delimiter_only_line_is_invalid Toy.server Toy.empty_fs
           (ProcessConfigFile Toy.empty_fs 0) " " "  "
           (Toy.initial "main.cfg")).
  - left. reflexivity.
  - reflexivity.
Defined.

Lemma indented_line_is_an_assignment_witness :
  (forall rest,
     @ProcessConfigLine Toy.server Toy.empty_fs
       (ProcessConfigFile Toy.empty_fs 0) (String " " " " ++ rest)
     = ProcessVariableAssignment (String " " " " ++ rest)) /\
  (exists st',
     ProcessConfigLine Toy.empty_fs (ProcessConfigFile Toy.empty_fs 0)
       (String " " " " ++ "#" ++ " " ++ "note") (Toy.initial "main.cfg")
     = Some (ENOENT, st') /\
     set_calls (trace st') = [("#", "note")]) /\
  (exists st',
     ProcessConfigLine Toy.empty_fs (ProcessConfigFile Toy.empty_fs 0)
       (String " " " " ++ "/a" ++ "=" ++ "b") (Toy.initial "main.cfg")
     = Some (ENOENT, st') /\
     set_calls (trace st') = [("  /a", "b")]).
Proof.
  split; [|split].
  - exact (proj1 (@indented_line_is_an_assignment Toy.server Toy.empty_fs
                    (ProcessConfigFile Toy.empty_fs 0) " " "#" "note"
                    (Toy.initial "main.cfg") eq_refl eq_refl)).
  - apply (proj1 (proj2
             (@indented_line_is_an_assignment Toy.server Toy.empty_fs
                (ProcessConfigFile Toy.empty_fs 0) " " "#" "note"
                (Toy.initial "main.cfg") eq_refl eq_refl)));
      [discriminate|reflexivity|reflexivity].
  - exact (proj2 (proj2
             (@indented_line_is_an_assignment Toy.server Toy.empty_fs
                (ProcessConfigFile Toy.empty_fs 0) " " "/a" "b"
                (Toy.initial "main.cfg") eq_refl eq_refl))).
Defined.

Lemma only_directives_enter_files_witness :
  ProcessConfigLine Toy.empty_fs (ProcessConfigFile Toy.empty_fs 5)
    "@includes main.cfg" (Toy.initial "main.cfg")
  = ProcessConfigLine Toy.empty_fs (ProcessConfigFile Toy.empty_fs 0)
      "@includes main.cfg" (Toy.initial "main.cfg")
  /\ exists rc st',
       ProcessConfigLine Toy.empty_fs (ProcessConfigFile Toy.empty_fs 5)
         "@includes main.cfg" (Toy.initial "main.cfg") = Some (rc, st') /\
       pFileName st' = Some "main.cfg" /\ lineno st' = 0 /\
       required st' = true /\ verbose st' = false.
Proof.
  exact (@only_directives_enter_files Toy.server Toy.empty_fs
           (ProcessConfigFile Toy.empty_fs 5)
           (ProcessConfigFile Toy.empty_fs 0)
           "@includes main.cfg" (Toy.initial "main.cfg") eq_refl).
Defined.


Lemma skipped_buffer_only_counts_witness :
  ProcessConfigData Toy.empty_fs 0 ToyStartup.remarks (Toy.initial "main.cfg")
  = Some (EOK, set_lineno 3 (Toy.initial "main.cfg")).
Proof.
  apply (@skipped_buffer_only_counts Toy.server Toy.empty_fs 0
           ToyStartup.remarks (Toy.initial "main.cfg")).
  intros l h [<-|[<-|[<-|[]]]]; eexists; split; reflexivity.
Defined.

Lemma nothing_behind_NUL_witness :
  ProcessConfigData Toy.empty_fs 0
    ("/sys/x 1" ++ String NUL "/sys/y 2") (Toy.initial "main.cfg")
  = ProcessConfigData Toy.empty_fs 0 "/sys/x 1" (Toy.initial "main.cfg").
Proof.
  apply (@nothing_behind_NUL Toy.server Toy.empty_fs 0 "/sys/x 1" "/sys/y 2"
           (Toy.initial "main.cfg")).
  reflexivity.
Defined.

Lemma includedir_swallows_failures_witness :
  let st := Toy.initial "main.cfg" in
  let recurse := ProcessConfigFile Toy.confd_fs 1 in
  (exists st',
     ProcessIncludeDirDirective Toy.confd_fs recurse (Some "conf.d") st
     = Some (EOK, st')) /\
  ProcessIncludeDirDirective Toy.confd_fs recurse (Some "nowhere") st
  = Some (EOK, st).
Proof.
  cbv zeta.
  pose proof (@includedir_swallows_failures Toy.server Toy.confd_fs
                (ProcessConfigFile Toy.confd_fs 1)) as Hthm.
  split.
  - apply (proj1 (proj2 (Hthm "conf.d" (Toy.initial "main.cfg")))
             ["."; ".."; "a.cfg"; "notes.txt"] eq_refl).
    intros d_name s Hin.
    rewrite (ProcessConfigFile_not_loaded Toy.confd_fs 0 d_name s);
      [eexists; reflexivity|].
    destruct Hin as [<-|[<-|[<-|[<-|[]]]]]; reflexivity.
  - exact (proj2 (proj2 (Hthm "nowhere" (Toy.initial "main.cfg"))) eq_refl).
Defined.

Lemma verbose_is_read_only_witness :
  match ProcessConfigFile Toy.nested_fs 2 (Some "main.cfg")
          (Toy.initial "main.cfg") with
  | Some (rc, st') => verbose st' = false
  | None => False
  end.
Proof.
  destruct (ProcessConfigFile Toy.nested_fs 2 (Some "main.cfg")
              (Toy.initial "main.cfg")) as [[rc st']|] eqn:Hrun.
  - exact (proj1 (@verbose_is_read_only Toy.server Toy.nested_fs 2)
             _ _ _ _ Hrun).
  - vm_compute in Hrun. discriminate Hrun.
Defined.

Lemma quiet_run_is_quiet_witness :
  match ProcessConfigFile Toy.nested_fs 2 (Some "main.cfg")
          (Toy.initial "main.cfg") with
  | Some (rc, st') =>
      exists tl, trace st' = ([] ++ tl)%list /\
                 Forall (fun e => chatty e = false) tl
  | None => False
  end.
Proof.
  destruct (ProcessConfigFile Toy.nested_fs 2 (Some "main.cfg")
              (Toy.initial "main.cfg")) as [[rc st']|] eqn:Hrun.
  - exact (@quiet_run_is_quiet Toy.server Toy.nested_fs 2
             (Some "main.cfg") (Toy.initial "main.cfg") rc st'
             eq_refl Hrun).
  - vm_compute in Hrun. discriminate Hrun.
Defined.

Lemma store_follows_set_calls_witness :
  match ProcessConfigFile Toy.nested_fs 2 (Some "main.cfg")
          (Toy.initial "main.cfg") with
  | Some (rc, st') =>
      exists tl, trace st' = ([] ++ tl)%list /\
                 hVarServer st'
                 = replay (set_calls tl) ToyStartup.empty_store /\
                 (set_calls tl = [] ->
                  hVarServer st' = ToyStartup.empty_store)
  | None => False
  end.
Proof.
  destruct (ProcessConfigFile Toy.nested_fs 2 (Some "main.cfg")
              (Toy.initial "main.cfg")) as [[rc st']|] eqn:Hrun.
  - exact (@store_follows_set_calls Toy.server Toy.nested_fs 2 _ _ _ _ Hrun).
  - vm_compute in Hrun. discriminate Hrun.
Defined.

Lemma messages_name_a_place_witness :
  match ProcessConfigFile Toy.nested_fs 2 (Some "main.cfg")
          (Toy.initial "main.cfg") with
  | Some (rc, st') =>
      exists tl, trace st' = ([] ++ tl)%list /\ Forall placed tl
  | None => False
  end.
Proof.
  destruct (ProcessConfigFile Toy.nested_fs 2 (Some "main.cfg")
              (Toy.initial "main.cfg")) as [[rc st']|] eqn:Hrun.
  - exact (@messages_name_a_place Toy.server Toy.nested_fs 2 _ _ _ _ Hrun).
  - vm_compute in Hrun. discriminate Hrun.
Defined.

Lemma no_file_name_no_processing_witness :
  exists p,
    @Startup.main Toy.server Toy.nested_fs 3 (Some "loadconfig")
      ToyStartup.healthy [ToyStartup.flag "v"; ToyStartup.flag "h"]
      ToyStartup.empty_store 1
    = Some p /\
    hVarServer (Startup.state p) = ToyStartup.empty_store /\
    pFileName (Startup.state p) = None /\
    (forall e, In e (trace (Startup.state p)) ->
               e = Log "Cannot create working buffer" None 0).
Proof.
  apply (@no_file_name_no_processing Toy.server Toy.nested_fs 3
           (Some "loadconfig") ToyStartup.healthy
           [ToyStartup.flag "v"; ToyStartup.flag "h"]
           ToyStartup.empty_store 0).
  - lia.
  - reflexivity.
Defined.

Lemma nonpositive_buffer_size_stops_witness :
  exists p said,
    @Startup.main Toy.server Toy.nested_fs 5 (Some "loadconfig")
      ToyStartup.healthy ToyStartup.bad_size ToyStartup.empty_store 2
    = Some p /\
    trace (Startup.state p)
    = [Log "Cannot create working buffer" (Some "main.cfg") 0] /\
    hVarServer (Startup.state p) = ToyStartup.empty_store /\
    Startup.console p
    = (said ++ [Startup.BufferError EINVAL; Startup.CallServerClose])%list /\
    Forall (fun c => exists name, c = Startup.UsageText name) said.
Proof.
  apply (proj1 (@nonpositive_buffer_size_stops Toy.server Toy.nested_fs 5
                  (Some "loadconfig") ToyStartup.healthy ToyStartup.bad_size
                  ToyStartup.empty_store 2 "abc" ltac:(lia) eq_refl eq_refl
                  ltac:(vm_compute; discriminate))).
Defined.

Lemma working_buffer_release_witness :
  (forall p,
     @Startup.main Toy.server Toy.nested_fs 5 (Some "loadconfig")
       ToyStartup.healthy ToyStartup.verbose_main
       ToyStartup.empty_store 2 = Some p ->
     Startup.console p
     = [Startup.UsageText "loadconfig"; Startup.CallShmOpen 4711;
        Startup.CallFtruncate 3 8193; Startup.CallMmap 3 8193;
        Startup.CallMunmap 8192; Startup.CallClose 3;
        Startup.CallShmUnlink (Some 4711); Startup.CallServerClose]) /\
  (exists p,
     @Startup.main Toy.server Toy.nested_fs 5 (Some "loadconfig")
       ToyStartup.no_map ToyStartup.verbose_main
       ToyStartup.empty_store 2 = Some p /\
     trace (Startup.state p)
     = [Log "Cannot create working buffer" (Some "main.cfg") 0] /\
     (forall name, ~ In (Startup.CallShmUnlink name) (Startup.console p)) /\
     In (Startup.CallShmOpen 4711) (Startup.console p) /\
     In (Startup.CallClose 3) (Startup.console p)).
Proof.
  split.
  - exact (proj1 (@working_buffer_release Toy.server Toy.nested_fs 5
                    (Some "loadconfig") ToyStartup.healthy
                    ToyStartup.verbose_main ToyStartup.empty_store 2 3
                    ltac:(lia) eq_refl ltac:(vm_compute; split; reflexivity)
                    eq_refl) eq_refl eq_refl).
  - exact (proj2 (@working_buffer_release Toy.server Toy.nested_fs 5
                    (Some "loadconfig") ToyStartup.no_map
                    ToyStartup.verbose_main ToyStartup.empty_store 2 3
                    ltac:(lia) eq_refl ltac:(vm_compute; split; reflexivity)
                    eq_refl) 12 ltac:(discriminate)
             (or_intror (conj eq_refl eq_refl))).
Defined.
